(** * iot-weather-ui: the dashboard's polling, aggregation and gauge logic

    A shallow embedding of the page component [Home] and of its helpers
    [parseDate], [collectStats] and [GaugeArc], together with the properties
    of the specification that concern them.

    JavaScript numbers are IEEE 754 binary64 values.  They are modelled by
    the Standard Library's [spec_float] at precision 53 and maximal exponent
    1024, whose operations round to nearest, ties to even, as the language
    prescribes, and which has a single NaN, as a script observes.  Every
    binary64 value is a [spec_float]; what is proved for all of them holds
    for the numbers of a script.

    Strings are sequences of code units; the model restricts them to code
    units below 256, one [ascii] each.

    The markup, the number formatting and the request URL are left out: a
    request is identified by the limit it asks for. *)

From Stdlib Require Import ZArith List String Ascii Bool Lia DecimalString.
From Stdlib Require Import Permutation.
From Stdlib Require DecimalPos DecimalN.
From Stdlib Require Import Floats.SpecFloat.
Import ListNotations.

Local Open Scope Z_scope.

(** ** Numbers *)

Module JS.

Definition number := spec_float.

Definition prec : Z := 53.
Definition emax : Z := 1024.

(** The Number value for a mathematical integer. *)
Definition Number_of_Z (z : Z) : number := binary_normalize prec emax z 0 false.
Definition Number_of_nat (n : nat) : number := Number_of_Z (Z.of_nat n).

Definition NaN : number := S754_nan.
Definition Infinity : number := S754_infinity false.
Definition neg_Infinity : number := S754_infinity true.
Definition pos_zero : number := S754_zero false.
Definition neg_zero : number := S754_zero true.

Definition add (x y : number) : number := SFadd prec emax x y.
Definition sub (x y : number) : number := SFsub prec emax x y.
Definition div (x y : number) : number := SFdiv prec emax x y.
Definition lt (x y : number) : bool := SFltb x y.
Definition le (x y : number) : bool := SFleb x y.

Definition Number_isNaN (x : number) : bool :=
  match x with S754_nan => true | _ => false end.

Definition Number_isFinite (x : number) : bool :=
  match x with S754_zero _ | S754_finite _ _ _ => true | _ => false end.

(** [Number.isInteger]: finite, and no binary digit after the point. *)
Definition Number_isInteger (x : number) : bool :=
  match x with
  | S754_zero _ => true
  | S754_finite _ m e =>
      (0 <=? e) || (Z.pos m mod 2 ^ (- e) =? 0)
  | _ => false
  end.

Definition is_pos_zero (x : number) : bool :=
  match x with S754_zero false => true | _ => false end.
Definition is_neg_zero (x : number) : bool :=
  match x with S754_zero true => true | _ => false end.

(** [Object.is] on numbers, the comparison React uses for state and for
    effect dependencies: NaN is itself, the two zeros differ. *)
Definition Object_is (x y : number) : bool :=
  match x, y with
  | S754_nan, S754_nan => true
  | S754_zero s, S754_zero t => Bool.eqb s t
  | S754_infinity s, S754_infinity t => Bool.eqb s t
  | S754_finite s m e, S754_finite t n f =>
      Bool.eqb s t && Pos.eqb m n && Z.eqb e f
  | _, _ => false
  end.

(** [Math.min(...args)] and [Math.max(...args)] as ECMAScript defines them:
    a NaN argument makes the result NaN, [-0] is below [+0], and the scan
    starts from the opposite infinity.  An engine's bound on the number of
    arguments of a call is not modelled. *)
Fixpoint Math_min_from (lowest : number) (args : list number) : number :=
  match args with
  | [] => lowest
  | x :: rest =>
      if Number_isNaN x then NaN
      else
        let lowest :=
          if is_neg_zero x && is_pos_zero lowest then neg_zero else lowest in
        let lowest := if lt x lowest then x else lowest in
        Math_min_from lowest rest
  end.

Fixpoint Math_max_from (highest : number) (args : list number) : number :=
  match args with
  | [] => highest
  | x :: rest =>
      if Number_isNaN x then NaN
      else
        let highest :=
          if is_pos_zero x && is_neg_zero highest then pos_zero else highest in
        let highest := if lt highest x then x else highest in
        Math_max_from highest rest
  end.

Definition Math_min (args : list number) : number :=
  Math_min_from Infinity args.
Definition Math_max (args : list number) : number :=
  Math_max_from neg_Infinity args.

(** *** [Number.parseInt(string, 10)] *)

(** White space and line terminators among the code units below 256. *)
Definition is_white_space (c : ascii) : bool :=
  let n := N_of_ascii c in
  ((9 <=? n) && (n <=? 13) || (n =? 32) || (n =? 160))%N.

Fixpoint trim_start (s : string) : string :=
  match s with
  | String c rest => if is_white_space c then trim_start rest else s
  | EmptyString => s
  end.

Definition digit_value (c : ascii) : option Z :=
  let n := N_of_ascii c in
  if ((48 <=? n) && (n <=? 57))%N then Some (Z.of_N n - 48) else None.

(** The longest prefix of decimal digits, read as a mathematical integer;
    [None] when that prefix is empty. *)
Fixpoint digits_from (acc : option Z) (s : string) : option Z :=
  match s with
  | String c rest =>
      match digit_value c with
      | Some d =>
          digits_from (Some (10 * match acc with Some a => a | None => 0 end + d)) rest
      | None => acc
      end
  | EmptyString => acc
  end.

Definition parseInt (input : string) : number :=
  let str := trim_start input in
  let '(sign, str) :=
    match str with
    | String "-"%char rest => (true, rest)
    | String "+"%char rest => (false, rest)
    | _ => (false, str)
    end in
  match digits_from None str with
  | None => NaN
  | Some mathInt =>
      if mathInt =? 0 then (if sign then neg_zero else pos_zero)
      else Number_of_Z (if sign then - mathInt else mathInt)
  end.

End JS.

Import JS.

Notation "# z" := (Number_of_Z z) (at level 1, format "# z").

(** ** Data model *)

Record Reading := {
  _id : string;
  sensorId : string;
  location : string;
  temperature : number;
  humidity : number;
  pressure : option number;
  timestamp : option string;
  createdAt : option string;
  updatedAt : option string
}.

Module Stats.
Record t := { min : number; max : number; average : number; count : nat }.
End Stats.

Definition DEFAULT_LIMIT : number := #20.
Definition POLL_INTERVAL : Z := 10000.

(** [a ?? b] *)
Definition nullish {A : Type} (a b : option A) : option A :=
  match a with Some _ => a | None => b end.
Infix "??" := nullish (at level 61, left associativity).

(** ** parseDate and the effective event time *)

Section EventTime.

(** The host's date parser: the time value of [new Date(input)] in
    milliseconds, [None] when it is NaN (an invalid date). *)
Variable new_Date : string -> option Z.

Definition parseDate (input : option string) : option Z :=
  match input with
  | None => None
  | Some EmptyString => None
  | Some input => new_Date input
  end.

Definition rowTimestamp (reading : Reading) : option Z :=
  parseDate (timestamp reading) ??
  parseDate (createdAt reading) ??
  parseDate (updatedAt reading).

Definition latestReading (readings : list Reading) : option Reading :=
  hd_error readings.

(** [latestReading?.field] *)
Definition opt_chain (r : option Reading) (field : Reading -> option string)
  : option string :=
  match r with Some r => field r | None => None end.

Definition lastTimestamp (readings : list Reading) : option Z :=
  parseDate (opt_chain (latestReading readings) timestamp) ??
  parseDate (opt_chain (latestReading readings) createdAt) ??
  parseDate (opt_chain (latestReading readings) updatedAt).

End EventTime.

(** One date parser every host agrees with on its domain: the UTC form
    [YYYY-MM-DDTHH:mm:ssZ] of the ECMAScript date-time string format. *)
Module UtcDate.

Definition two (a b : ascii) : option Z :=
  match digit_value a, digit_value b with
  | Some x, Some y => Some (10 * x + y)
  | _, _ => None
  end.

Definition four (a b c d : ascii) : option Z :=
  match two a b, two c d with
  | Some x, Some y => Some (100 * x + y)
  | _, _ => None
  end.

Definition is_leap (y : Z) : bool :=
  ((y mod 4 =? 0) && negb (y mod 100 =? 0)) || (y mod 400 =? 0).

Definition days_in_month (y m : Z) : Z :=
  if m =? 2 then (if is_leap y then 29 else 28)
  else if (m =? 4) || (m =? 6) || (m =? 9) || (m =? 11) then 30
  else 31.

(** Days from 1970-01-01 to the given civil date. *)
Definition days_from_civil (y m d : Z) : Z :=
  let y := if m <=? 2 then y - 1 else y in
  let era := y / 400 in
  let yoe := y - era * 400 in
  let doy := (153 * (if 2 <? m then m - 3 else m + 9) + 2) / 5 + d - 1 in
  let doe := yoe * 365 + yoe / 4 - yoe / 100 + doy in
  era * 146097 + doe - 719468.

Definition make_time (y mo d h mi s : Z) : option Z :=
  if (1 <=? mo) && (mo <=? 12) && (1 <=? d) && (d <=? days_in_month y mo)
     && (h <=? 23) && (mi <=? 59) && (s <=? 59)
  then Some ((((days_from_civil y mo d * 24 + h) * 60 + mi) * 60 + s) * 1000)
  else None.

Definition parse (input : string) : option Z :=
  match list_ascii_of_string input with
  | [y1; y2; y3; y4; "-"; m1; m2; "-"; d1; d2; "T";
     h1; h2; ":"; n1; n2; ":"; s1; s2; "Z"]%char =>
      match four y1 y2 y3 y4, two m1 m2, two d1 d2,
            two h1 h2, two n1 n2, two s1 s2 with
      | Some y, Some mo, Some d, Some h, Some mi, Some s =>
          make_time y mo d h mi s
      | _, _, _, _, _, _ => None
      end
  | _ => None
  end.

End UtcDate.

(** ** collectStats *)

Definition collectStats (values : list number) : option Stats.t :=
  match values with
  | [] => None
  | _ :: _ =>
      let min := Math_min values in
      let max := Math_max values in
      let average :=
        div (fold_left (fun sum value => add sum value) values #0)
            (Number_of_nat (List.length values)) in
      Some {| Stats.min := min; Stats.max := max;
              Stats.average := average; Stats.count := List.length values |}
  end.

(** ** GaugeArc

    The component's computed values; the markup it returns shows the
    placeholder when [isEmpty] holds and draws the arc from [percent]. *)

Module Gauge.
Record t := {
  safeValue : number;
  span : number;
  percent : number;
  isEmpty : bool
}.
End Gauge.

Definition GaugeArc (value : option number) (min max : number) : Gauge.t :=
  let safeValue := match value with Some v => v | None => #0 end in
  let span := Math_max [sub max min; #1] in
  let percent := Math_min [Math_max [div (sub safeValue min) span; #0]; #1] in
  let isEmpty :=
    match value with None => true | Some v => Number_isNaN v end in
  {| Gauge.safeValue := safeValue; Gauge.span := span;
     Gauge.percent := percent; Gauge.isEmpty := isEmpty |}.

(** ** The Home component *)

Record HomeState := {
  readings : list Reading;
  limit : number;
  limitInput : string;
  lastUpdated : option Z;
  error : option string;
  isFetching : bool
}.

(** [String(DEFAULT_LIMIT)] *)
Definition Home_init : HomeState :=
  {| readings := []; limit := DEFAULT_LIMIT; limitInput := "20"%string;
     lastUpdated := None; error := None; isFetching := false |}.

Definition setReadings (v : list Reading) (s : HomeState) : HomeState :=
  {| readings := v; limit := limit s; limitInput := limitInput s;
     lastUpdated := lastUpdated s; error := error s;
     isFetching := isFetching s |}.
Definition setLimit (v : number) (s : HomeState) : HomeState :=
  {| readings := readings s; limit := v; limitInput := limitInput s;
     lastUpdated := lastUpdated s; error := error s;
     isFetching := isFetching s |}.
Definition setLimitInput (v : string) (s : HomeState) : HomeState :=
  {| readings := readings s; limit := limit s; limitInput := v;
     lastUpdated := lastUpdated s; error := error s;
     isFetching := isFetching s |}.
Definition setLastUpdated (v : option Z) (s : HomeState) : HomeState :=
  {| readings := readings s; limit := limit s; limitInput := limitInput s;
     lastUpdated := v; error := error s; isFetching := isFetching s |}.
Definition setError (v : option string) (s : HomeState) : HomeState :=
  {| readings := readings s; limit := limit s; limitInput := limitInput s;
     lastUpdated := lastUpdated s; error := v; isFetching := isFetching s |}.
Definition setIsFetching (v : bool) (s : HomeState) : HomeState :=
  {| readings := readings s; limit := limit s; limitInput := limitInput s;
     lastUpdated := lastUpdated s; error := error s; isFetching := v |}.

(** *** What a request can come back with *)

(** A thrown value: an [Error] instance with its message, or anything else. *)
Inductive thrown :=
  | Error (message : string)
  | NotAnError.

(** A parsed JSON payload.  The elements of an array are taken at the type
    the source casts them to, [Reading[]]; the cast is unchecked. *)
Inductive json :=
  | JNull
  | JBool (b : bool)
  | JNumber (n : number)
  | JString (s : string)
  | JObject
  | JArray (items : list Reading).

Definition Array_isArray (data : json) : bool :=
  match data with JArray _ => true | _ => false end.

(** A response: its status code, and how [response.json()] settles. *)
Record Response := {
  status : N;
  json_body : thrown + json
}.

(** [response.ok]: the status is in the range 200 to 299. *)
Definition ok (response : Response) : bool :=
  ((200 <=? status response) && (status response <=? 299))%N.

Inductive outcome :=
  | Rejected (err : thrown)          (* [fetch] rejects *)
  | Resolved (response : Response).  (* [fetch] resolves *)

Definition string_of_status (n : N) : string :=
  DecimalString.NilZero.string_of_uint (N.to_uint n).

(** *** fetchReadings

    The function is asynchronous.  Up to its first [await] it marks the
    fetch as running, clears the error and issues the request; the rest runs
    when the request settles.  A request is recorded by the limit it asks
    for. *)

Definition fetchReadings (limitToUse : number) (s : HomeState)
  : HomeState * list number :=
  (setError None (setIsFetching true s), [limitToUse]).

(** The remainder of the [try] block: the new state, or the value thrown. *)
Definition fetchReadings_try (o : outcome) (now : Z) (s : HomeState)
  : thrown + HomeState :=
  match o with
  | Rejected err => inl err
  | Resolved response =>
      if negb (ok response) then
        inl (Error ("Failed to fetch readings ("
                    ++ string_of_status (status response) ++ ").")%string)
      else
        match json_body response with
        | inl err => inl err
        | inr data =>
            let items :=
              match data with JArray items => items | _ => [] end in
            inr (setLastUpdated (Some now) (setReadings items s))
        end
  end.

Definition fetchReadings_catch (err : thrown) (s : HomeState) : HomeState :=
  let message :=
    match err with
    | Error message => message
    | NotAnError => "Could not fetch readings."%string
    end in
  setError (Some message) s.

(** [try ... catch ... finally] once the request has settled. *)
Definition fetchReadings_settle (o : outcome) (now : Z) (s : HomeState)
  : HomeState :=
  let s :=
    match fetchReadings_try o now s with
    | inr s' => s'
    | inl err => fetchReadings_catch err s
    end in
  setIsFetching false s.

(** *** The effect, the derived values and the submit handler *)

(** The effect body: one poll at once, with the current limit.  The interval
    it installs fires [Tick]s that run the same call. *)
Definition useEffect_poll (s : HomeState) : HomeState * list number :=
  fetchReadings (limit s) s.

Definition temperatureStats (readings : list Reading) : option Stats.t :=
  collectStats (filter Number_isFinite (map temperature readings)).

Definition humidityStats (readings : list Reading) : option Stats.t :=
  collectStats (filter Number_isFinite (map humidity readings)).

Definition validation_message : string :=
  "Enter a valid number of readings."%string.

Definition handleSubmit (s : HomeState) : HomeState * list number :=
  let parsed := parseInt (limitInput s) in
  if negb (Number_isFinite parsed) || le parsed #0 then
    (setError (Some validation_message) s, [])
  else
    fetchReadings parsed (setLimit parsed s).

(** *** The component as a transition system *)

Inductive event :=
  | Mount                            (* first commit: the effect runs *)
  | Tick                             (* the interval fires *)
  | Settle (o : outcome) (now : Z)   (* a request settles at time [now] *)
  | Change (value : string)          (* the limit input is edited *)
  | Submit.                          (* the form is submitted *)

(** A step gives the next state and the requests issued.  After a submit
    that changes [limit], the effect's dependencies differ and it runs
    again. *)
Definition step (s : HomeState) (e : event) : HomeState * list number :=
  match e with
  | Mount | Tick => useEffect_poll s
  | Settle o now => (fetchReadings_settle o now s, [])
  | Change value => (setLimitInput value s, [])
  | Submit =>
      let '(s', issued) := handleSubmit s in
      if Object_is (limit s) (limit s') then (s', issued)
      else
        let '(s'', again) := useEffect_poll s' in
        (s'', (issued ++ again)%list)
  end.

Fixpoint run (s : HomeState) (es : list event) : HomeState :=
  match es with
  | [] => s
  | e :: es => run (fst (step s e)) es
  end.

(** ** Vocabulary of the properties *)

(** Extrema with respect to the numeric order [<=] of the language. *)
Definition is_minimum (m : number) (l : list number) : Prop :=
  In m l /\ Forall (fun v => le m v = true) l.
Definition is_maximum (m : number) (l : list number) : Prop :=
  In m l /\ Forall (fun v => le v m = true) l.

(** The sum as the reducer forms it: from 0, left to right, each addition
    rounded. *)
Definition running_sum (values : list number) : number :=
  fold_left add values #0.

(** What the aggregator owes for a sequence of values: nothing when it is
    empty, and otherwise its extrema, its rounded mean and its size. *)
Definition summarises (stats : option Stats.t) (values : list number) : Prop :=
  match stats with
  | None => values = []
  | Some st =>
      values <> []
      /\ is_minimum (Stats.min st) values
      /\ is_maximum (Stats.max st) values
      /\ Stats.average st
         = div (running_sum values) (Number_of_nat (List.length values))
      /\ Stats.count st = List.length values
  end.

Definition finite_values (values : list number) : list number :=
  filter Number_isFinite values.

Definition clamp (x lo hi : number) : number :=
  Math_min [Math_max [x; lo]; hi].

Definition is_zero (x : number) : bool :=
  match x with S754_zero _ => true | _ => false end.

Definition is_finite_positive_integer (x : number) : bool :=
  Number_isInteger x && lt #0 x.

(** The ways a poll fails: [fetch] rejects, the status is not a success, or
    reading the body as JSON rejects. *)
Definition poll_failed (o : outcome) : bool :=
  match o with
  | Rejected _ => true
  | Resolved response =>
      negb (ok response)
      || match json_body response with inl _ => true | inr _ => false end
  end.



(** The first field that is present, whatever it holds. *)
Definition first_present (reading : Reading) : option string :=
  timestamp reading ?? createdAt reading ?? updatedAt reading.

(** A field is usable when it is present, not empty and a valid date. *)
Definition usable (new_Date : string -> option Z) (field : option string)
  : option Z :=
  match field with
  | Some str => if String.eqb str EmptyString then None else new_Date str
  | None => None
  end.

Fixpoint first_usable (new_Date : string -> option Z)
  (fields : list (option string)) : option Z :=
  match fields with
  | [] => None
  | field :: rest =>
      match usable new_Date field with
      | Some t => Some t
      | None => first_usable new_Date rest
      end
  end.

(** A reading that carries the given temperature and humidity. *)
Definition sample (t h : number) : Reading :=
  {| _id := EmptyString; sensorId := EmptyString;
     location := EmptyString; temperature := t;
     humidity := h; pressure := None; timestamp := None;
     createdAt := None; updatedAt := None |}.

(** A reading that carries the given time fields. *)
Definition dated (ts ca ua : option string) : Reading :=
  {| _id := EmptyString; sensorId := EmptyString;
     location := EmptyString; temperature := #0;
     humidity := #0; pressure := None; timestamp := ts;
     createdAt := ca; updatedAt := ua |}.

Definition ok_response (data : json) : Response :=
  {| status := 200; json_body := inr data |}.

(** ** The rest of the page *)

(** [StatCard]: the count in the title, [stats?.count ?? 0], and whether
    the three cells show the placeholder instead of a value. *)
Module CardView.
Record t := { count : nat; placeholder : bool }.
End CardView.

Definition StatCard (stats : option Stats.t) : CardView.t :=
  {| CardView.count :=
       match stats with Some st => Stats.count st | None => 0%nat end;
     CardView.placeholder :=
       match stats with Some _ => false | None => true end |}.

(** The two gauges of the page, fed with [latestReading?.temperature] and
    [latestReading?.humidity]. *)
Definition temperatureGauge (readings : list Reading) : Gauge.t :=
  GaugeArc (option_map temperature (latestReading readings)) #0 #50.

Definition humidityGauge (readings : list Reading) : Gauge.t :=
  GaugeArc (option_map humidity (latestReading readings)) #0 #100.

(** [s.slice(start)]: a negative start counts from the end, and either way
    the start is brought back into the string. *)
Fixpoint string_drop (n : nat) (s : string) : string :=
  match n, s with
  | O, _ => s
  | S n, String _ rest => string_drop n rest
  | S _, EmptyString => EmptyString
  end.

Definition String_slice (s : string) (start : Z) : string :=
  let len := Z.of_nat (String.length s) in
  let from := if start <? 0 then Z.max (len + start) 0 else Z.min start len in
  string_drop (Z.to_nat from) s.

(** The cell of the ID column, [reading._id.slice(-6)]. *)
Definition id_cell (reading : Reading) : string :=
  String_slice (_id reading) (-6).

(** *** The effect and its interval

    The runtime around the component: the intervals that are live, each
    with its handle and the limit its callback closed over, the handle the
    effect's cleanup will clear, and the next handle [setInterval] gives. *)
Record Runtime := {
  view : HomeState;
  intervals : list (nat * number);
  cleanup : option nat;
  next_handle : nat
}.

Definition Runtime_init : Runtime :=
  {| view := Home_init; intervals := []; cleanup := None; next_handle := 0 |}.

Definition with_view (s : HomeState) (rt : Runtime) : Runtime :=
  {| view := s; intervals := intervals rt; cleanup := cleanup rt;
     next_handle := next_handle rt |}.

Definition clearInterval (h : nat) (timers : list (nat * number))
  : list (nat * number) :=
  filter (fun t => negb (Nat.eqb (fst t) h)) timers.

(** The effect: poll at once, install the interval, return the cleanup. *)
Definition effect_run (rt : Runtime) : Runtime * list number :=
  let '(s', issued) := fetchReadings (limit (view rt)) (view rt) in
  ({| view := s';
      intervals := (next_handle rt, limit (view rt)) :: intervals rt;
      cleanup := Some (next_handle rt);
      next_handle := S (next_handle rt) |}, issued).

(** The cleanup the effect returned: [clearInterval(interval)]. *)
Definition effect_cleanup (rt : Runtime) : Runtime :=
  match cleanup rt with
  | Some h =>
      {| view := view rt; intervals := clearInterval h (intervals rt);
         cleanup := None; next_handle := next_handle rt |}
  | None => rt
  end.

Inductive action :=
  | AMount                            (* the component is mounted *)
  | AFire (h : nat)                   (* the interval with handle [h] is due *)
  | ASettle (o : outcome) (now : Z)   (* a request settles *)
  | AChange (value : string)          (* the limit input is edited *)
  | ASubmit                           (* the form is submitted *)
  | AUnmount.                         (* the component is unmounted *)

(** An interval that was cleared does not fire.  A submit that changes
    [limit] changes the effect's dependencies: the cleanup runs, then the
    effect. *)
Definition act (rt : Runtime) (a : action) : Runtime * list number :=
  match a with
  | AMount => effect_run rt
  | AFire h =>
      match find (fun t => Nat.eqb (fst t) h) (intervals rt) with
      | Some (_, captured) =>
          let '(s', issued) := fetchReadings captured (view rt) in
          (with_view s' rt, issued)
      | None => (rt, [])
      end
  | ASettle o now => (with_view (fetchReadings_settle o now (view rt)) rt, [])
  | AChange value => (with_view (setLimitInput value (view rt)) rt, [])
  | ASubmit =>
      let '(s', issued) := handleSubmit (view rt) in
      if Object_is (limit (view rt)) (limit s') then (with_view s' rt, issued)
      else
        let '(rt', again) := effect_run (effect_cleanup (with_view s' rt)) in
        (rt', (issued ++ again)%list)
  | AUnmount => (effect_cleanup rt, [])
  end.

(** The runtimes of a mounted component, and those after its unmount, where
    only intervals and pending requests can still act. *)
Inductive mounted : Runtime -> Prop :=
  | mounted_first : mounted (fst (act Runtime_init AMount))
  | mounted_fire rt h : mounted rt -> mounted (fst (act rt (AFire h)))
  | mounted_settle rt o now :
      mounted rt -> mounted (fst (act rt (ASettle o now)))
  | mounted_change rt value :
      mounted rt -> mounted (fst (act rt (AChange value)))
  | mounted_submit rt : mounted rt -> mounted (fst (act rt ASubmit)).

Inductive unmounted : Runtime -> Prop :=
  | unmounted_first rt : mounted rt -> unmounted (fst (act rt AUnmount))
  | unmounted_fire rt h : unmounted rt -> unmounted (fst (act rt (AFire h)))
  | unmounted_settle rt o now :
      unmounted rt -> unmounted (fst (act rt (ASettle o now))).

(** *** Vocabulary of the further properties *)

(** The requests issued along a run of the component. *)
Fixpoint issued_along (s : HomeState) (es : list event) : list number :=
  match es with
  | [] => []
  | e :: es => (snd (step s e) ++ issued_along (fst (step s e)) es)%list
  end.

(** The payload a settled request puts in the window, if it succeeded. *)
Definition new_window (o : outcome) : option (list Reading) :=
  match o with
  | Rejected _ => None
  | Resolved response =>
      if ok response then
        match json_body response with
        | inr (JArray items) => Some items
        | inr _ => Some []
        | inl _ => None
        end
      else None
  end.

Definition is_success (e : event) : bool :=
  match e with
  | Settle o _ => match new_window o with Some _ => true | None => false end
  | _ => false
  end.

Definition all_white (w : string) : Prop :=
  Forall (fun c => is_white_space c = true) (list_ascii_of_string w).

Definition is_digit (c : ascii) : bool :=
  match digit_value c with Some _ => true | None => false end.

(** The rest of an input after a numeral: empty, or starting with a code
    unit that is not a digit. *)
Definition ends_numeral (tail : string) : Prop :=
  match tail with
  | EmptyString => True
  | String c _ => is_digit c = false
  end.

(** The decimal numeral of a natural number. *)
Definition numeral (n : N) : string := string_of_status n.

(** Two results of the aggregator that agree on the extrema, as numbers,
    and on the count. *)
Definition same_extrema_and_count (a b : option Stats.t) : Prop :=
  match a, b with
  | Some st, Some st' =>
      le (Stats.min st) (Stats.min st') = true
      /\ le (Stats.min st') (Stats.min st) = true
      /\ le (Stats.max st) (Stats.max st') = true
      /\ le (Stats.max st') (Stats.max st) = true
      /\ Stats.count st = Stats.count st'
  | None, None => True
  | _, _ => False
  end.

(** While the component is mounted exactly one interval is live; its
    callback closed over the limit that is current. *)
Definition one_live_interval (rt : Runtime) : Prop :=
  exists h,
    intervals rt = [(h, limit (view rt))]
    /\ cleanup rt = Some h
    /\ (h < next_handle rt)%nat.

(** The value of a digit sequence read left to right from [acc]. *)
Fixpoint read_uint (d : Decimal.uint) (acc : Z) : Z :=
  match d with
  | Decimal.Nil => acc
  | Decimal.D0 d => read_uint d (10 * acc + 0)
  | Decimal.D1 d => read_uint d (10 * acc + 1)
  | Decimal.D2 d => read_uint d (10 * acc + 2)
  | Decimal.D3 d => read_uint d (10 * acc + 3)
  | Decimal.D4 d => read_uint d (10 * acc + 4)
  | Decimal.D5 d => read_uint d (10 * acc + 5)
  | Decimal.D6 d => read_uint d (10 * acc + 6)
  | Decimal.D7 d => read_uint d (10 * acc + 7)
  | Decimal.D8 d => read_uint d (10 * acc + 8)
  | Decimal.D9 d => read_uint d (10 * acc + 9)
  end.

(** The sign that [parseInt] takes off the trimmed input. *)
Definition split_sign (str : string) : bool * string :=
  match str with
  | String "-"%char rest => (true, rest)
  | String "+"%char rest => (false, rest)
  | _ => (false, str)
  end.

(** * Facts about numbers *)

(** Splits the goal along every comparison of exponents and mantissas. *)
Ltac cmp_cases :=
  repeat match goal with
  | H : context [Pos.compare_cont Eq ?a ?b] |- _ =>
      change (Pos.compare_cont Eq a b) with (Pos.compare a b) in H
  | |- context [Pos.compare_cont Eq ?a ?b] =>
      change (Pos.compare_cont Eq a b) with (Pos.compare a b)
  end;
  repeat match goal with
  | H : context [Z.compare ?a ?b] |- _ => destruct (Z.compare_spec a b)
  | |- context [Z.compare ?a ?b] => destruct (Z.compare_spec a b)
  | H : context [Pos.compare ?a ?b] |- _ => destruct (Pos.compare_spec a b)
  | |- context [Pos.compare ?a ?b] => destruct (Pos.compare_spec a b)
  end;
  simpl in *; try reflexivity; try discriminate; try lia.

Module NumberOrder.

Lemma le_trans (a b c : number) :
  le a b = true -> le b c = true -> le a c = true.
Proof.
  unfold le, SFleb, SFcompare.
  destruct a as [[]|[]| |[] ma ea], b as [[]|[]| |[] mb eb],
           c as [[]|[]| |[] mc ec];
    intros; try reflexivity; try discriminate; cmp_cases.
Qed.

Lemma le_refl (a : number) : Number_isNaN a = false -> le a a = true.
Proof.
  unfold le, SFleb, SFcompare.
  destruct a as [[]|[]| |[] ma ea]; intros;
    try reflexivity; try discriminate; cmp_cases.
Qed.

Lemma lt_le (a b : number) : lt a b = true -> le a b = true.
Proof.
  unfold lt, le, SFltb, SFleb. destruct (SFcompare a b) as [[]|]; easy.
Qed.

Lemma not_lt_le (a b : number) :
  Number_isNaN a = false -> Number_isNaN b = false ->
  lt a b = false -> le b a = true.
Proof.
  unfold lt, le, SFltb, SFleb, SFcompare.
  destruct a as [[]|[]| |[] ma ea], b as [[]|[]| |[] mb eb];
    intros; try reflexivity; try discriminate; cmp_cases.
Qed.

Lemma finite_not_NaN (v : number) :
  Number_isFinite v = true -> Number_isNaN v = false.
Proof. destruct v; easy. Qed.

Lemma all_finite_not_NaN (l : list number) :
  Forall (fun v => Number_isFinite v = true) l ->
  Forall (fun v => Number_isNaN v = false) l.
Proof. apply Forall_impl, finite_not_NaN. Qed.

End NumberOrder.

Create HintDb number.
#[local] Hint Resolve NumberOrder.le_refl NumberOrder.lt_le
  NumberOrder.not_lt_le : number.

(** What the scan of [Math.min] returns when no argument is NaN: the start
    value or an argument, below the start value and below every argument. *)
Lemma Math_min_from_spec (args : list number) :
  Forall (fun v => Number_isNaN v = false) args ->
  forall lowest, Number_isNaN lowest = false ->
  let r := Math_min_from lowest args in
  (r = lowest \/ In r args) /\ Number_isNaN r = false /\
  le r lowest = true /\ Forall (fun v => le r v = true) args.
Proof.
  induction 1 as [|x rest Hx Hrest IH]; intros lowest Hl; simpl.
  - repeat split; auto with number.
  - rewrite Hx.
    set (l1 := if is_neg_zero x && is_pos_zero lowest
               then neg_zero else lowest).
    set (l2 := if lt x l1 then x else l1).
    assert (H1 : Number_isNaN l1 = false /\ le l1 lowest = true
                 /\ (l1 = lowest \/ l1 = x)).
    { unfold l1. destruct (is_neg_zero x && is_pos_zero lowest) eqn:E.
      - apply andb_prop in E. destruct E as [E1 E2].
        destruct x as [[]| | |]; try discriminate.
        destruct lowest as [[]| | |]; try discriminate. auto.
      - auto with number. }
    destruct H1 as (N1 & L1 & M1).
    assert (H2 : Number_isNaN l2 = false /\ le l2 l1 = true
                 /\ le l2 x = true /\ (l2 = l1 \/ l2 = x)).
    { unfold l2. destruct (lt x l1) eqn:E; auto 6 with number. }
    destruct H2 as (N2 & L2 & L2x & M2).
    destruct (IH l2 N2) as (M & N & L & A).
    repeat split; auto.
    + destruct M as [M|M]; [|auto]. rewrite M.
      destruct M2 as [->| ->]; [|auto]. destruct M1 as [->| ->]; auto.
    + eauto using NumberOrder.le_trans.
    + constructor; [eauto using NumberOrder.le_trans|exact A].
Qed.

Lemma Math_max_from_spec (args : list number) :
  Forall (fun v => Number_isNaN v = false) args ->
  forall highest, Number_isNaN highest = false ->
  let r := Math_max_from highest args in
  (r = highest \/ In r args) /\ Number_isNaN r = false /\
  le highest r = true /\ Forall (fun v => le v r = true) args.
Proof.
  induction 1 as [|x rest Hx Hrest IH]; intros highest Hh; simpl.
  - repeat split; auto with number.
  - rewrite Hx.
    set (h1 := if is_pos_zero x && is_neg_zero highest
               then pos_zero else highest).
    set (h2 := if lt h1 x then x else h1).
    assert (H1 : Number_isNaN h1 = false /\ le highest h1 = true
                 /\ (h1 = highest \/ h1 = x)).
    { unfold h1. destruct (is_pos_zero x && is_neg_zero highest) eqn:E.
      - apply andb_prop in E. destruct E as [E1 E2].
        destruct x as [[]| | |]; try discriminate.
        destruct highest as [[]| | |]; try discriminate. auto.
      - auto with number. }
    destruct H1 as (N1 & L1 & M1).
    assert (H2 : Number_isNaN h2 = false /\ le h1 h2 = true
                 /\ le x h2 = true /\ (h2 = h1 \/ h2 = x)).
    { unfold h2. destruct (lt h1 x) eqn:E; auto 6 with number. }
    destruct H2 as (N2 & L2 & L2x & M2).
    destruct (IH h2 N2) as (M & N & L & A).
    repeat split; auto.
    + destruct M as [M|M]; [|auto]. rewrite M.
      destruct M2 as [->| ->]; [|auto]. destruct M1 as [->| ->]; auto.
    + eauto using NumberOrder.le_trans.
    + constructor; [eauto using NumberOrder.le_trans|exact A].
Qed.

Lemma Math_min_finite (values : list number) :
  values <> [] -> Forall (fun v => Number_isFinite v = true) values ->
  is_minimum (Math_min values) values.
Proof.
  intros Hne Hfin. unfold Math_min.
  destruct values as [|x rest]; [congruence|].
  pose proof (NumberOrder.all_finite_not_NaN _ Hfin) as Hn.
  destruct (Math_min_from_spec _ Hn Infinity eq_refl) as (M & N & L & A).
  split; [|exact A].
  destruct M as [M|M]; [|exact M].
  exfalso. inversion A as [|? ? Hx _]; subst. rewrite M in Hx.
  inversion Hfin as [|? ? Fx _]; subst.
  destruct x; discriminate.
Qed.

Lemma Math_max_finite (values : list number) :
  values <> [] -> Forall (fun v => Number_isFinite v = true) values ->
  is_maximum (Math_max values) values.
Proof.
  intros Hne Hfin. unfold Math_max.
  destruct values as [|x rest]; [congruence|].
  pose proof (NumberOrder.all_finite_not_NaN _ Hfin) as Hn.
  destruct (Math_max_from_spec _ Hn neg_Infinity eq_refl) as (M & N & L & A).
  split; [|exact A].
  destruct M as [M|M]; [|exact M].
  exfalso. inversion A as [|? ? Hx _]; subst. rewrite M in Hx.
  inversion Hfin as [|? ? Fx _]; subst.
  destruct x; discriminate.
Qed.

(** ** Rounding

    The rounding of a non-negative mantissa gives a zero, an infinity or a
    finite number whose exponent is not below the one given: never NaN. *)

Section Rounding.

Variables p em : Z.

Lemma shr_1_nonneg mrs : 0 <= shr_m mrs -> 0 <= shr_m (shr_1 mrs).
Proof.
  destruct mrs as [m r s]; simpl.
  destruct m as [|[q|q|]|[q|q|]]; simpl; lia.
Qed.

Lemma iter_pos_inv {A : Type} (P : A -> Prop) (f : A -> A) :
  (forall x, P x -> P (f x)) -> forall n x, P x -> P (iter_pos f n x).
Proof.
  intros Hf. induction n as [n IH|n IH|]; simpl; auto.
Qed.

Lemma shr_nonneg mrs e n : 0 <= shr_m mrs -> 0 <= shr_m (fst (shr mrs e n)).
Proof.
  intros H. destruct n; simpl; auto.
  apply (iter_pos_inv (fun x => 0 <= shr_m x)); auto using shr_1_nonneg.
Qed.

Lemma shr_exponent mrs e n : e <= snd (shr mrs e n).
Proof. destruct n; simpl; lia. Qed.

Lemma shr_m_of_loc m l : shr_m (shr_record_of_loc m l) = m.
Proof. destruct l as [|[]]; reflexivity. Qed.

Lemma round_nearest_even_nonneg m l : 0 <= m -> 0 <= round_nearest_even m l.
Proof.
  intros H. destruct l as [|[]]; simpl; try lia.
  destruct (Z.even m); lia.
Qed.

Lemma binary_round_aux_cases sx mx ex lx :
  0 <= mx ->
  let r := binary_round_aux p em sx mx ex lx in
  r = S754_zero sx \/ r = S754_infinity sx \/
  exists m e, r = S754_finite sx m e /\ ex <= e.
Proof.
  intros Hm. unfold binary_round_aux, shr_fexp.
  set (n1 := fexp p em (Zdigits2 mx + ex) - ex).
  pose proof (shr_nonneg (shr_record_of_loc mx lx) ex n1) as H1.
  pose proof (shr_exponent (shr_record_of_loc mx lx) ex n1) as E1.
  destruct (shr (shr_record_of_loc mx lx) ex n1) as [mrs' e'].
  simpl in H1, E1.
  rewrite shr_m_of_loc in H1. specialize (H1 Hm).
  set (m2 := round_nearest_even (shr_m mrs') (loc_of_shr_record mrs')).
  assert (H2 : 0 <= m2) by (apply round_nearest_even_nonneg; exact H1).
  set (n2 := fexp p em (Zdigits2 m2 + e') - e').
  pose proof (shr_nonneg (shr_record_of_loc m2 loc_Exact) e' n2) as H3.
  pose proof (shr_exponent (shr_record_of_loc m2 loc_Exact) e' n2) as E2.
  destruct (shr (shr_record_of_loc m2 loc_Exact) e' n2) as [mrs'' e''].
  simpl in H3, E2. specialize (H3 H2).
  destruct (shr_m mrs'') as [|q|q]; [auto| |lia].
  destruct (e'' <=? em - p); [|auto].
  right; right. exists q, e''. split; [reflexivity|lia].
Qed.

End Rounding.

Lemma binary_normalize_not_NaN z e sz :
  Number_isNaN (binary_normalize prec emax z e sz) = false.
Proof.
  destruct z as [|q|q]; simpl; [reflexivity| |];
  unfold binary_round;
  match goal with |- context [shl_align ?a ?b ?c] =>
    destruct (shl_align a b c) as [mz ez] end;
  match goal with |- context [binary_round_aux ?p ?em ?s ?m ?x ?l] =>
    destruct (binary_round_aux_cases p em s m x l)
      as [H|[H|(m' & e' & H & _)]];
    [lia|rewrite H; reflexivity..]
  end.
Qed.

Lemma sub_finite_inv (a b : number) :
  Number_isFinite (sub a b) = true ->
  Number_isFinite a = true /\ Number_isFinite b = true.
Proof.
  destruct a as [[]|[]| |[] ma ea], b as [[]|[]| |[] mb eb]; simpl; auto.
Qed.

Lemma sub_not_NaN (a b : number) :
  Number_isNaN a = false -> Number_isFinite b = true ->
  Number_isNaN (sub a b) = false.
Proof.
  destruct a as [sa|sa| |sa ma ea], b as [sb|sb| |sb mb eb]; simpl; try easy.
  - destruct sa, sb; reflexivity.
  - intros _ _. apply binary_normalize_not_NaN.
Qed.

Lemma div_not_NaN (a : number) (s : bool) (m : positive) (e : Z) :
  Number_isNaN a = false -> Number_isNaN (div a (S754_finite s m e)) = false.
Proof.
  destruct a as [sa|sa| |sa ma ea]; simpl; try easy.
  intros _. unfold SFdiv_core_binary.
  match goal with |- context [Z.div_eucl ?x ?y] =>
    pose proof (Z.div_eucl_eq x y) as Hq;
    pose proof (Z.mod_pos_bound x y) as Hr;
    assert (Hx : 0 <= x);
    [|unfold Z.modulo in Hr; destruct (Z.div_eucl x y) as [q r]]
  end.
  { match goal with |- 0 <= match ?s with _ => _ end =>
      destruct s eqn:Es end; try lia.
    apply Z.shiftl_nonneg. lia. }
  assert (0 <= q) by nia.
  match goal with |- context [binary_round_aux ?p ?em ?sx ?mx ?x ?l] =>
    destruct (binary_round_aux_cases p em sx mx x l)
      as [H1|[H1|(m' & e' & H1 & _)]];
    [assumption|rewrite H1; reflexivity..]
  end.
Qed.

(** ** The Number value of an integer is an integer *)

Lemma digits2_pos_iter (m k : positive) :
  Z.pos (digits2_pos (PosDef.Pos.iter xO m k))
  = Z.pos (digits2_pos m) + Z.pos k.
Proof.
  change (PosDef.Pos.iter xO m k) with (Pos.iter xO m k).
  induction k as [|k IH] using Pos.peano_ind.
  - simpl. lia.
  - rewrite Pos.iter_succ. simpl digits2_pos. lia.
Qed.

Lemma Zpos_iter_xO (m k : positive) :
  Z.pos (PosDef.Pos.iter xO m k) = Z.pos m * 2 ^ Z.pos k.
Proof.
  change (PosDef.Pos.iter xO m k) with (Pos.iter xO m k).
  induction k as [|k IH] using Pos.peano_ind.
  - simpl. lia.
  - rewrite Pos.iter_succ, Pos2Z.inj_succ, Z.pow_succ_r by lia.
    rewrite Pos2Z.inj_xO, IH. lia.
Qed.

Lemma shr_fexp_exact (mz : positive) (ez : Z) :
  fexp prec emax (Zdigits2 (Z.pos mz) + ez) - ez = 0 ->
  shr_fexp prec emax (Z.pos mz) ez loc_Exact =
  ({| shr_m := Z.pos mz; shr_r := false; shr_s := false |}, ez).
Proof. unfold shr_fexp. intros ->. reflexivity. Qed.

Lemma binary_round_integer (s : bool) (m : positive) :
  let r := binary_round prec emax s m 0 in
  Number_isFinite r = true -> Number_isInteger r = true.
Proof.
  unfold binary_round, shl_align.
  set (d := Z.pos (digits2_pos m)).
  assert (Hf : fexp prec emax (d + 0) = d - 53).
  { unfold fexp, emin, prec, emax. subst d. lia. }
  rewrite Hf.
  destruct (d - 53 - 0) as [|k|k] eqn:Hk.
  - (* exactly 53 digits: the exponent stays at 0 or grows *)
    pose proof (binary_round_aux_cases prec emax s (Z.pos m) 0 loc_Exact) as H.
    destruct H as [H|[H|(m' & e' & H & He)]]; [lia|rewrite H..]; try easy.
    intros _. simpl. apply orb_true_iff. left. lia.
  - (* more than 53 digits: likewise *)
    pose proof (binary_round_aux_cases prec emax s (Z.pos m) 0 loc_Exact) as H.
    destruct H as [H|[H|(m' & e' & H & He)]]; [lia|rewrite H..]; try easy.
    intros _. simpl. apply orb_true_iff. left. lia.
  - (* fewer than 53 digits: the mantissa is shifted left, exactly *)
    assert (Hd : d + Z.pos k = 53) by lia.
    unfold binary_round_aux.
    assert (Hn : fexp prec emax
                   (Zdigits2 (Z.pos (PosDef.Pos.iter xO m k)) + (d - 53))
                 - (d - 53) = 0).
    { simpl Zdigits2. rewrite digits2_pos_iter. fold d.
      unfold fexp, emin, prec, emax. subst d. lia. }
    rewrite (shr_fexp_exact _ _ Hn).
    cbn [shr_m loc_of_shr_record round_nearest_even].
    rewrite (shr_fexp_exact _ _ Hn). cbn [shr_m].
    assert (Hle : (d - 53 <=? emax - prec) = true)
      by (apply Z.leb_le; unfold emax, prec; lia).
    rewrite Hle. intros _. cbn [Number_isInteger].
    apply orb_true_iff. right. apply Z.eqb_eq.
    rewrite Zpos_iter_xO.
    replace (- (d - 53)) with (Z.pos k) by lia.
    apply Z.mod_mul. lia.
Qed.

Lemma Number_of_Z_integer (z : Z) :
  Number_isFinite (Number_of_Z z) = true ->
  Number_isInteger (Number_of_Z z) = true.
Proof.
  unfold Number_of_Z. destruct z as [|q|q]; simpl binary_normalize.
  - reflexivity.
  - apply binary_round_integer.
  - apply binary_round_integer.
Qed.

Lemma parseInt_integer (input : string) :
  Number_isFinite (parseInt input) = true ->
  Number_isInteger (parseInt input) = true.
Proof.
  unfold parseInt.
  destruct (match trim_start input with
            | String "-"%char rest => (true, rest)
            | String "+"%char rest => (false, rest)
            | _ => (false, trim_start input)
            end) as [sign str].
  destruct (digits_from None str) as [mathInt|]; [|easy].
  destruct (mathInt =? 0); [destruct sign; reflexivity|].
  apply Number_of_Z_integer.
Qed.

(** * The stats aggregator *)

Lemma collectStats_summarises (values : list number) :
  Forall (fun v => Number_isFinite v = true) values ->
  summarises (collectStats values) values.
Proof.
  intros Hfin. destruct values as [|x rest]; [reflexivity|].
  assert (Hne : x :: rest <> []) by discriminate.
  unfold collectStats, summarises.
  cbn [Stats.min Stats.max Stats.average Stats.count].
  split; [exact Hne|].
  split; [exact (Math_min_finite _ Hne Hfin)|].
  split; [exact (Math_max_finite _ Hne Hfin)|].
  split; reflexivity.
Qed.

Lemma finite_values_finite (values : list number) :
  Forall (fun v => Number_isFinite v = true) (finite_values values).
Proof.
  apply Forall_forall. intros v Hv.
  apply filter_In in Hv. tauto.
Qed.

(** C9.  [collectStats] returns null for the empty sequence; for every
    non-empty sequence of finite numbers it returns a record whose [min] and
    [max] are elements of the sequence below, respectively above, all the
    others, whose [average] is the sum (accumulated from 0, left to right)
    divided by the length, and whose [count] is the length.  [1,2,3] yields
    min 1, max 3, average 2, count 3. *)
Theorem collectStats_extrema_mean_count :
  collectStats [] = None
  /\ collectStats [#1; #2; #3]
     = Some {| Stats.min := #1; Stats.max := #3;
               Stats.average := #2; Stats.count := 3 |}
  /\ forall values : list number,
       values <> [] ->
       Forall (fun v => Number_isFinite v = true) values ->
       exists st,
         collectStats values = Some st
         /\ is_minimum (Stats.min st) values
         /\ is_maximum (Stats.max st) values
         /\ Stats.average st
            = div (running_sum values) (Number_of_nat (List.length values))
         /\ Stats.count st = List.length values.
Proof.
  split; [reflexivity|]. split; [vm_compute; reflexivity|].
  intros values Hne Hfin.
  pose proof (collectStats_summarises values Hfin) as H.
  destruct (collectStats values) as [st|]; simpl in H.
  - exists st. tauto.
  - contradiction.
Qed.

Lemma collectStats_extrema_mean_count_witness :
  exists st,
    collectStats [#4; #(-7)] = Some st
    /\ is_minimum (Stats.min st) [#4; #(-7)]
    /\ is_maximum (Stats.max st) [#4; #(-7)]
    /\ Stats.average st
       = div (running_sum [#4; #(-7)]) (Number_of_nat 2)
    /\ Stats.count st = 2%nat.
Proof.
  apply (proj2 (proj2 collectStats_extrema_mean_count) [#4; #(-7)]).
  - discriminate.
  - repeat constructor.
Defined.

(** C2.  Before aggregation the non-finite values (NaN, Infinity,
    -Infinity) are dropped: the temperature and humidity statistics are
    [collectStats] of the finite values only, which is null when no finite
    value remains and otherwise gives the extrema, the mean and the size of
    the finite values.  Values NaN and 5 yield min 5, max 5, average 5,
    count 1. *)
Theorem stats_ignore_non_finite_values :
  (forall values : list number,
     Forall (fun v => Number_isFinite v = true) (finite_values values)
     /\ summarises (collectStats (finite_values values))
                   (finite_values values))
  /\ (forall readings : list Reading,
        summarises (temperatureStats readings)
                   (finite_values (map temperature readings))
        /\ summarises (humidityStats readings)
                      (finite_values (map humidity readings)))
  /\ finite_values [NaN; Infinity; #5; neg_Infinity] = [#5]
  /\ temperatureStats [sample NaN #40; sample #5 #40]
     = Some {| Stats.min := #5; Stats.max := #5;
               Stats.average := #5; Stats.count := 1 |}
  /\ temperatureStats [sample NaN #40; sample Infinity #40] = None.
Proof.
  split; [|split; [|split; [|split]]].
  - intros values. split.
    + apply finite_values_finite.
    + apply collectStats_summarises, finite_values_finite.
  - intros readings. split.
    + apply collectStats_summarises, finite_values_finite.
    + apply collectStats_summarises, finite_values_finite.
  - reflexivity.
  - vm_compute. reflexivity.
  - reflexivity.
Qed.

(** * The gauge mapper *)

Lemma clamp_unit_interval (q : number) :
  Number_isNaN q = false ->
  le #0 (clamp q #0 #1) = true /\ le (clamp q #0 #1) #1 = true.
Proof.
  intros Hq. unfold clamp.
  assert (Hargs : Forall (fun v => Number_isNaN v = false) [q; #0])
    by (repeat constructor; assumption).
  destruct (Math_max_from_spec _ Hargs neg_Infinity eq_refl)
    as (_ & Nm & _ & Am).
  fold (Math_max [q; #0]) in Nm, Am.
  set (m := Math_max [q; #0]) in *.
  assert (H0m : le #0 m = true).
  { inversion Am as [|? ? _ Am']; subst. inversion Am'; subst. assumption. }
  assert (Hargs' : Forall (fun v => Number_isNaN v = false) [m; #1])
    by (repeat constructor; assumption).
  destruct (Math_min_from_spec _ Hargs' Infinity eq_refl)
    as (Mr & _ & _ & Ar).
  fold (Math_min [m; #1]) in Mr, Ar.
  set (r := Math_min [m; #1]) in *.
  split.
  - destruct Mr as [->|[<-|[<-|[]]]]; [reflexivity|assumption|reflexivity].
  - inversion Ar as [|? ? _ Ar']; subst. inversion Ar'; subst. assumption.
Qed.

Lemma span_at_least_one (d : number) :
  Number_isNaN d = false ->
  Number_isNaN (Math_max [d; #1]) = false /\ le #1 (Math_max [d; #1]) = true
  /\ (Math_max [d; #1] = d \/ Math_max [d; #1] = #1).
Proof.
  intros Hd.
  assert (Hargs : Forall (fun v => Number_isNaN v = false) [d; #1])
    by (repeat constructor; assumption).
  destruct (Math_max_from_spec _ Hargs neg_Infinity eq_refl)
    as (M & N & _ & A).
  fold (Math_max [d; #1]) in M, N, A.
  assert (L : le #1 (Math_max [d; #1]) = true).
  { inversion A as [|? ? _ A']; subst. inversion A'; subst. assumption. }
  repeat split; try assumption.
  destruct M as [M|[M|[M|[]]]]; auto.
  rewrite M in L. discriminate.
Qed.

Lemma span_never_zero (d : number) : is_zero (Math_max [d; #1]) = false.
Proof.
  destruct (Number_isNaN d) eqn:Hd.
  - unfold Math_max. simpl. rewrite Hd. reflexivity.
  - destruct (span_at_least_one d Hd) as (_ & L & _).
    destruct (Math_max [d; #1]) as [[]| | |]; try reflexivity; discriminate.
Qed.

(** The clamp of the component, [Math.min(Math.max(q, 0), 1)], is the
    clamp: 0 below the interval, 1 above it, the quotient inside it. *)

Lemma le_not_lt (a b : number) : le a b = true -> lt b a = false.
Proof.
  unfold lt, le, SFltb, SFleb, SFcompare.
  destruct a as [[]|[]| |[] ma ea], b as [[]|[]| |[] mb eb];
    intros; try reflexivity; try discriminate; cmp_cases.
Qed.

Lemma lt_not_NaN (a b : number) :
  lt a b = true -> Number_isNaN a = false /\ Number_isNaN b = false.
Proof. destruct a, b; simpl; auto; discriminate. Qed.

Lemma le_not_NaN (a b : number) :
  le a b = true -> Number_isNaN a = false /\ Number_isNaN b = false.
Proof. destruct a, b; simpl; auto; discriminate. Qed.

Lemma Math_max_pair (a b : number) :
  Number_isNaN a = false -> Number_isNaN b = false ->
  Math_max [a; b]
  = let h := if is_pos_zero b && is_neg_zero a then pos_zero else a in
    if lt h b then b else h.
Proof.
  intros Ha Hb. unfold Math_max. cbn [Math_max_from]. rewrite Ha.
  replace (is_pos_zero a && is_neg_zero neg_Infinity) with false
    by (destruct (is_pos_zero a); reflexivity).
  assert (E : (if lt neg_Infinity a then a else neg_Infinity) = a).
  { destruct a as [[]|[]| |[] m e]; try reflexivity; discriminate. }
  rewrite E, Hb. reflexivity.
Qed.

Lemma Math_min_pair (a b : number) :
  Number_isNaN a = false -> Number_isNaN b = false ->
  Math_min [a; b]
  = let l := if is_neg_zero b && is_pos_zero a then neg_zero else a in
    if lt b l then b else l.
Proof.
  intros Ha Hb. unfold Math_min. cbn [Math_min_from]. rewrite Ha.
  replace (is_neg_zero a && is_pos_zero Infinity) with false
    by (destruct (is_neg_zero a); reflexivity).
  assert (E : (if lt a Infinity then a else Infinity) = a).
  { destruct a as [[]|[]| |[] m e]; try reflexivity; discriminate. }
  rewrite E, Hb. reflexivity.
Qed.

(** Inside the interval the clamp changes nothing (but the sign of a zero). *)
Lemma clamp_inside (q : number) :
  le #0 q = true -> le q #1 = true ->
  clamp q #0 #1 = if is_neg_zero q then #0 else q.
Proof.
  intros H0 H1.
  destruct (le_not_NaN _ _ H0) as [_ Hq].
  unfold clamp.
  rewrite (Math_max_pair q #0 Hq eq_refl). cbv zeta.
  change (is_pos_zero #0) with true. cbn [andb].
  destruct (is_neg_zero q) eqn:Hz.
  - reflexivity.
  - rewrite (le_not_lt _ _ H0).
    rewrite (Math_min_pair q #1 Hq eq_refl). cbv zeta.
    change (is_neg_zero #1) with false. cbn [andb].
    rewrite (le_not_lt _ _ H1). reflexivity.
Qed.

Lemma clamp_below (q : number) : lt q #0 = true -> clamp q #0 #1 = #0.
Proof.
  intros H. destruct (lt_not_NaN _ _ H) as [Hq _].
  unfold clamp. rewrite (Math_max_pair q #0 Hq eq_refl). cbv zeta.
  replace (is_pos_zero #0 && is_neg_zero q) with false
    by (destruct q as [[]| | |]; try reflexivity; discriminate).
  rewrite H. reflexivity.
Qed.

Lemma clamp_above (q : number) : lt #1 q = true -> clamp q #0 #1 = #1.
Proof.
  intros H. destruct (lt_not_NaN _ _ H) as [_ Hq].
  unfold clamp. rewrite (Math_max_pair q #0 Hq eq_refl). cbv zeta.
  replace (is_pos_zero #0 && is_neg_zero q) with false
    by (destruct q as [[]| | |]; try reflexivity; discriminate).
  replace (lt q #0) with false
    by (destruct q as [[]|[]| |[] m e]; try reflexivity; discriminate).
  rewrite (Math_min_pair q #1 Hq eq_refl). cbv zeta.
  change (is_neg_zero #1) with false. cbn [andb].
  rewrite H. reflexivity.
Qed.

(** C3, amended.  For every value that is missing or is not NaN, and every
    range whose width [max - min] is finite, the gauge computes
    [percent = clamp((value - min) / span, 0, 1)] with
    [span = max(max - min, 1)] and a missing value read as 0; [span] is at
    least 1 and [percent] lies in [0, 1].  For every input at all, [span] is
    never a zero, so no division by zero occurs, also when [min = max].
    [(25, 0, 50)] maps to 0.5 and [(-5, 0, 50)] maps to 0. *)
Theorem gauge_percent_in_unit_interval :
  (forall (value : option number) (min max : number),
     match value with Some v => Number_isNaN v = false | None => True end ->
     Number_isFinite (sub max min) = true ->
     let g := GaugeArc value min max in
     Gauge.span g = Math_max [sub max min; #1]
     /\ Gauge.percent g
        = clamp (div (sub (Gauge.safeValue g) min) (Gauge.span g)) #0 #1
     /\ Gauge.safeValue g = match value with Some v => v | None => #0 end
     /\ le #1 (Gauge.span g) = true
     /\ le #0 (Gauge.percent g) = true
     /\ le (Gauge.percent g) #1 = true)
  /\ (forall (value : option number) (min max : number),
        is_zero (Gauge.span (GaugeArc value min max)) = false)
  /\ Gauge.span (GaugeArc (Some #7) #3 #3) = #1
  /\ Gauge.percent (GaugeArc (Some #25) #0 #50) = div #1 #2
  /\ Gauge.percent (GaugeArc (Some #(-5)) #0 #50) = #0.
Proof.
  split; [|split; [|repeat split; vm_compute; reflexivity]].
  - intros value min max Hv Hw g.
    split; [reflexivity|]. split; [reflexivity|]. split; [reflexivity|].
    destruct (sub_finite_inv _ _ Hw) as [Hmax Hmin].
    destruct (span_at_least_one (sub max min)
                (NumberOrder.finite_not_NaN _ Hw)) as (Ns & Ls & Ms).
    change (Gauge.span g) with (Math_max [sub max min; #1]).
    change (Gauge.percent g)
      with (clamp (div (sub (Gauge.safeValue g) min)
                       (Math_max [sub max min; #1])) #0 #1).
    split; [exact Ls|].
    apply clamp_unit_interval.
    assert (Hsafe : Number_isNaN (Gauge.safeValue g) = false).
    { unfold g, GaugeArc. cbn [Gauge.safeValue].
      destruct value; [assumption|reflexivity]. }
    pose proof (sub_not_NaN _ _ Hsafe Hmin) as Hnum.
    assert (Hspan : exists s m e,
               Math_max [sub max min; #1] = S754_finite s m e).
    { destruct Ms as [E|E].
      - rewrite E in *. destruct (sub max min) as [[]|[]| |s m e];
          try discriminate; eauto.
      - rewrite E. vm_compute. eauto. }
    destruct Hspan as (s & m & e & ->).
    apply div_not_NaN. exact Hnum.
  - intros value min max. apply span_never_zero.
Qed.

Lemma gauge_percent_in_unit_interval_witness :
  let g := GaugeArc (Some #60) #0 #50 in
  Gauge.span g = Math_max [sub #50 #0; #1]
  /\ Gauge.percent g
     = clamp (div (sub (Gauge.safeValue g) #0) (Gauge.span g)) #0 #1
  /\ Gauge.safeValue g = #60
  /\ le #1 (Gauge.span g) = true
  /\ le #0 (Gauge.percent g) = true
  /\ le (Gauge.percent g) #1 = true.
Proof.
  apply (proj1 gauge_percent_in_unit_interval (Some #60) #0 #50).
  - reflexivity.
  - reflexivity.
Defined.

(** C3 as stated fails.  A NaN value gives a NaN percent, which is neither
    at least 0 nor at most 1; and so does a finite value in a range whose
    width overflows. *)
Lemma gauge_percent_outside_unit_interval :
  Gauge.percent (GaugeArc (Some NaN) #0 #50) = NaN
  /\ le #0 NaN = false /\ le NaN #1 = false
  /\ let big := #(10 ^ 308) in
     Number_isFinite big = true
     /\ Number_isFinite (sub #0 big) = true
     /\ Gauge.percent (GaugeArc (Some big) (sub #0 big) big) = NaN.
Proof. repeat split; vm_compute; reflexivity. Qed.

(** C4, amended.  The gauge reports the empty state exactly when the value
    is missing or NaN.  For every finite value, and also for Infinity and
    -Infinity, it reports a non-empty state. *)
Theorem gauge_empty_iff_missing_or_NaN :
  forall (value : option number) (min max : number),
    (Gauge.isEmpty (GaugeArc value min max) = true
     <-> value = None \/ value = Some NaN)
    /\ (forall v, value = Some v -> Number_isFinite v = true ->
                  Gauge.isEmpty (GaugeArc value min max) = false)
    /\ (forall s, value = Some (S754_infinity s) ->
                  Gauge.isEmpty (GaugeArc value min max) = false).
Proof.
  intros value min max. unfold GaugeArc. cbn [Gauge.isEmpty].
  split; [|split].
  - destruct value as [[| | |]|]; simpl; split; intros H;
      try discriminate; auto;
      destruct H as [H|H]; discriminate.
  - intros v -> Hv. apply NumberOrder.finite_not_NaN, Hv.
  - intros s ->. reflexivity.
Qed.

Lemma gauge_empty_iff_missing_or_NaN_witness :
  Gauge.isEmpty (GaugeArc (Some #25) #0 #50) = false.
Proof.
  apply (proj1 (proj2 (gauge_empty_iff_missing_or_NaN (Some #25) #0 #50))
               #25 eq_refl).
  reflexivity.
Defined.

(** C4 as stated fails.  Infinity is not finite, yet the gauge does not
    report the empty state for it. *)
Lemma gauge_not_empty_at_Infinity :
  Number_isFinite Infinity = false
  /\ Gauge.isEmpty (GaugeArc (Some Infinity) #0 #50) = false
  /\ Gauge.isEmpty (GaugeArc (Some neg_Infinity) #0 #100) = false.
Proof. repeat split. Qed.

(** * The effective event time *)

Lemma parseDate_usable (new_Date : string -> option Z) (field : option string) :
  parseDate new_Date field = usable new_Date field.
Proof. destruct field as [[|c str]|]; reflexivity. Qed.

Lemma usable_Some (new_Date : string -> option Z) (field : option string)
  (t : Z) :
  usable new_Date field = Some t
  <-> exists str, field = Some str /\ str <> EmptyString
                  /\ new_Date str = Some t.
Proof.
  split.
  - destruct field as [[|c str]|]; simpl; try discriminate.
    intros H. exists (String c str). repeat split; [discriminate|exact H].
  - intros (str & -> & Hne & H). destruct str; [contradiction|exact H].
Qed.

(** C7, amended.  The effective event time of a reading is the date of the
    first of [timestamp], [createdAt], [updatedAt], in that order, that is
    present, is not the empty string and denotes a valid date; a field that
    is present but empty or not a valid date is passed over.  When no field
    is usable, in particular when all three are absent, the time is unknown.
    The time shown for the window is that of its first reading.  A reading
    whose [timestamp] is a valid date resolves to it whatever the other two
    fields hold; so does one with timestamp 2024-01-01T00:00:00Z and
    createdAt 2023-01-01T00:00:00Z. *)
Theorem effective_time_is_first_usable_field :
  (forall (new_Date : string -> option Z) (reading : Reading),
     rowTimestamp new_Date reading
     = first_usable new_Date
         [timestamp reading; createdAt reading; updatedAt reading])
  /\ (forall (new_Date : string -> option Z) (readings : list Reading),
        lastTimestamp new_Date readings
        = match readings with
          | [] => None
          | latest :: _ => rowTimestamp new_Date latest
          end)
  /\ (forall (new_Date : string -> option Z) (field : option string) (t : Z),
        usable new_Date field = Some t
        <-> exists str, field = Some str /\ str <> EmptyString
                        /\ new_Date str = Some t)
  /\ (forall (new_Date : string -> option Z) (reading : Reading),
        timestamp reading = None -> createdAt reading = None ->
        updatedAt reading = None ->
        rowTimestamp new_Date reading = None)
  /\ (forall (new_Date : string -> option Z) (reading : Reading)
             (str : string) (t : Z),
        timestamp reading = Some str -> str <> EmptyString ->
        new_Date str = Some t ->
        rowTimestamp new_Date reading = Some t)
  /\ rowTimestamp UtcDate.parse
       (dated (Some "2024-01-01T00:00:00Z"%string)
              (Some "2023-01-01T00:00:00Z"%string) None)
     = UtcDate.parse "2024-01-01T00:00:00Z"
  /\ UtcDate.parse "2024-01-01T00:00:00Z" = Some 1704067200000
  /\ UtcDate.parse "2023-01-01T00:00:00Z" = Some 1672531200000.
Proof.
  split; [|split; [|split; [|split; [|split]]]].
  - intros new_Date reading. unfold rowTimestamp, nullish.
    rewrite !parseDate_usable. simpl.
    destruct (usable new_Date (timestamp reading)); [reflexivity|].
    destruct (usable new_Date (createdAt reading)); [reflexivity|].
    destruct (usable new_Date (updatedAt reading)); reflexivity.
  - intros new_Date [|latest rest]; reflexivity.
  - apply usable_Some.
  - intros new_Date reading H1 H2 H3. unfold rowTimestamp.
    rewrite H1, H2, H3. reflexivity.
  - intros new_Date reading str t H1 Hne Ht. unfold rowTimestamp.
    rewrite H1. destruct str; [contradiction|]. simpl. rewrite Ht. reflexivity.
  - repeat split; vm_compute; reflexivity.
Qed.

Lemma effective_time_is_first_usable_field_witness :
  rowTimestamp UtcDate.parse
    (dated (Some "1999-12-31T23:59:59Z"%string) None
           (Some "2001-02-03T04:05:06Z"%string))
  = Some 946684799000.
Proof.
  apply (proj1 (proj2 (proj2 (proj2 (proj2
           effective_time_is_first_usable_field))))
         UtcDate.parse _ "1999-12-31T23:59:59Z"%string).
  - reflexivity.
  - discriminate.
  - vm_compute. reflexivity.
Defined.

(** C7 as stated fails.  A reading whose [timestamp] is present but holds
    the empty string, or a string that is no date, does not resolve to that
    field: its effective time is the one of [createdAt]. *)
Lemma effective_time_skips_unusable_timestamp :
  (let reading := dated (Some EmptyString)
                        (Some "2023-01-01T00:00:00Z"%string) None in
   first_present reading = Some EmptyString
   /\ rowTimestamp UtcDate.parse reading = Some 1672531200000
   /\ rowTimestamp UtcDate.parse reading
      = parseDate UtcDate.parse (createdAt reading))
  /\ (let reading := dated (Some "yesterday"%string)
                           (Some "2023-01-01T00:00:00Z"%string) None in
      first_present reading = Some "yesterday"%string
      /\ UtcDate.parse "yesterday" = None
      /\ rowTimestamp UtcDate.parse reading = Some 1672531200000).
Proof. repeat split; vm_compute; reflexivity. Qed.

(** * Polling *)

Lemma failed_settle_readings (s : HomeState) (o : outcome) (now : Z) :
  poll_failed o = true ->
  readings (fetchReadings_settle o now s) = readings s.
Proof.
  unfold fetchReadings_settle, fetchReadings_try.
  destruct o as [err|response]; simpl; [reflexivity|].
  destruct (ok response); simpl; [|reflexivity].
  destruct (json_body response); [reflexivity|discriminate].
Qed.




(** C8.  When a poll succeeds (success status, body read as JSON), a payload
    that is not an array makes the window the empty sequence, an array
    payload, the empty one included, becomes the window as it is, and the
    last-updated time is set to the time of the update. *)
Theorem successful_poll_replaces_window :
  forall (s : HomeState) (response : Response) (data : json) (now : Z),
    ok response = true ->
    json_body response = inr data ->
    let s' := fetchReadings_settle (Resolved response) now s in
    (Array_isArray data = false -> readings s' = [])
    /\ (forall items, data = JArray items -> readings s' = items)
    /\ lastUpdated s' = Some now
    /\ isFetching s' = false
    /\ error s' = error s
    /\ limit s' = limit s.
Proof.
  intros s response data now Hok Hbody s'.
  unfold s', fetchReadings_settle, fetchReadings_try.
  rewrite Hok, Hbody. simpl.
  repeat split.
  - destruct data; try reflexivity. discriminate.
  - intros items ->. reflexivity.
Qed.

Lemma successful_poll_replaces_window_witness :
  let s := setReadings [sample #21 #40] Home_init in
  let s' :=
    fetchReadings_settle (Resolved (ok_response (JArray []))) 1000 s in
  (Array_isArray (JArray []) = false -> readings s' = [])
  /\ (forall items, JArray [] = JArray items -> readings s' = items)
  /\ lastUpdated s' = Some 1000
  /\ isFetching s' = false
  /\ error s' = error s
  /\ limit s' = limit s.
Proof.
  apply (successful_poll_replaces_window
           (setReadings [sample #21 #40] Home_init)
           (ok_response (JArray [])) (JArray []) 1000).
  - reflexivity.
  - reflexivity.
Defined.

(** * The limit control *)

(** The guard of [handleSubmit] rejects exactly the parsed values that are
    not finite positive integers. *)
Lemma submit_guard (input : string) :
  negb (Number_isFinite (parseInt input)) || le (parseInt input) #0
  = negb (is_finite_positive_integer (parseInt input)).
Proof.
  pose proof (parseInt_integer input) as Hint.
  unfold is_finite_positive_integer.
  destruct (parseInt input) as [s|s| |s m e]; try reflexivity.
  rewrite (Hint eq_refl). destruct s; reflexivity.
Qed.

Lemma handleSubmit_eq (s : HomeState) :
  handleSubmit s
  = if is_finite_positive_integer (parseInt (limitInput s))
    then fetchReadings (parseInt (limitInput s))
           (setLimit (parseInt (limitInput s)) s)
    else (setError (Some validation_message) s, []).
Proof.
  unfold handleSubmit. rewrite submit_guard.
  destruct (is_finite_positive_integer (parseInt (limitInput s)));
    reflexivity.
Qed.

Lemma Object_is_refl (x : number) : Object_is x x = true.
Proof.
  destruct x as [s|s| |s m e]; simpl; auto using eqb_reflx.
  rewrite eqb_reflx, Pos.eqb_refl, Z.eqb_refl. reflexivity.
Qed.

(** C5.  The submit handler parses the input as an integer.  When the
    parsed value is not a finite positive integer it fails: the error
    becomes the validation message, nothing else changes and no poll is
    issued; so it is for the inputs 0, -3 and abc.  Otherwise the limit
    becomes the parsed value and the handler issues one poll, with that
    limit; so it is for the input 15. *)
Theorem handleSubmit_validates_limit :
  (forall s : HomeState,
     let parsed := parseInt (limitInput s) in
     if is_finite_positive_integer parsed
     then limit (fst (handleSubmit s)) = parsed
          /\ snd (handleSubmit s) = [parsed]
          /\ error (fst (handleSubmit s)) = None
          /\ isFetching (fst (handleSubmit s)) = true
          /\ readings (fst (handleSubmit s)) = readings s
     else handleSubmit s = (setError (Some validation_message) s, []))
  /\ (forall s : HomeState,
        handleSubmit (setLimitInput "0" s)
        = (setError (Some validation_message) (setLimitInput "0" s), []))
  /\ (forall s : HomeState,
        handleSubmit (setLimitInput "-3" s)
        = (setError (Some validation_message) (setLimitInput "-3" s), []))
  /\ (forall s : HomeState,
        handleSubmit (setLimitInput "abc" s)
        = (setError (Some validation_message) (setLimitInput "abc" s), []))
  /\ (forall s : HomeState,
        limit (fst (handleSubmit (setLimitInput "15" s))) = #15
        /\ snd (handleSubmit (setLimitInput "15" s)) = [#15]
        /\ error (fst (handleSubmit (setLimitInput "15" s))) = None).
Proof.
  split; [|repeat split; vm_compute; reflexivity].
  intros s parsed. rewrite handleSubmit_eq. fold parsed.
  destruct (is_finite_positive_integer parsed); [|reflexivity].
  repeat split.
Qed.

(** C10.  Inputs that are not decimal integer numerals can pass: for 15.7
    and for 12abc the handler does not fail; it sets the limit to the
    integer prefix, 15 and 12, and polls with it. *)
Theorem handleSubmit_accepts_integer_prefix :
  parseInt "15.7" = #15
  /\ parseInt "12abc" = #12
  /\ (forall s : HomeState,
        limit (fst (handleSubmit (setLimitInput "15.7" s))) = #15
        /\ snd (handleSubmit (setLimitInput "15.7" s)) = [#15]
        /\ error (fst (handleSubmit (setLimitInput "15.7" s))) = None)
  /\ (forall s : HomeState,
        limit (fst (handleSubmit (setLimitInput "12abc" s))) = #12
        /\ snd (handleSubmit (setLimitInput "12abc" s)) = [#12]
        /\ error (fst (handleSubmit (setLimitInput "12abc" s))) = None).
Proof. repeat split; vm_compute; reflexivity. Qed.

(** Over the whole component, the window changes only when a poll
    succeeds. *)
Lemma window_changes_only_on_success (s : HomeState) (e : event) :
  readings (fst (step s e)) = readings s
  \/ exists o now, e = Settle o now /\ poll_failed o = false.
Proof.
  destruct e as [| |o now|value|]; simpl; auto.
  - destruct (poll_failed o) eqn:Hf; [left|right; eauto].
    apply failed_settle_readings, Hf.
  - left. rewrite handleSubmit_eq.
    destruct (is_finite_positive_integer (parseInt (limitInput s))); simpl.
    + match goal with |- context [Object_is ?a ?b] =>
        destruct (Object_is a b) end; reflexivity.
    + rewrite Object_is_refl. reflexivity.
Qed.

(** The requests of a whole submit step.  A valid submission polls once
    from the handler and, when it changes [limit], once more from the effect
    that runs again; every request asks for the parsed limit. *)
Lemma submit_step_requests (s : HomeState) :
  let parsed := parseInt (limitInput s) in
  snd (step s Submit)
  = if is_finite_positive_integer parsed
    then (if Object_is (limit s) parsed then [parsed] else [parsed; parsed])
    else [].
Proof.
  intros parsed. simpl. rewrite handleSubmit_eq. fold parsed.
  destruct (is_finite_positive_integer parsed); simpl.
  - destruct (Object_is (limit s) parsed); reflexivity.
  - rewrite Object_is_refl. reflexivity.
Qed.

(** * The error message over time *)

(** C6, amended.  After every step the error is accounted for as follows.
    A failing poll and an invalid submission set their own message, whatever
    message was there before.  Every start of a poll clears the error: the
    first run of the effect, each tick of the timer and a valid submission.
    Nothing else changes it: an edit of the input and the success of a poll
    leave it as it is (the start of that poll has cleared it already). *)
Theorem error_replaced_and_cleared_at_poll_start :
  forall (s : HomeState) (e : event),
    let s' := fst (step s e) in
    match e with
    | Mount | Tick => error s' = None
    | Submit =>
        if is_finite_positive_integer (parseInt (limitInput s))
        then error s' = None
        else error s' = Some validation_message
    | Change _ => error s' = error s
    | Settle o now =>
        if poll_failed o
        then exists message,
               forall s0, error (fst (step s0 (Settle o now))) = Some message
        else error s' = error s
    end.
Proof.
  intros s e s'. unfold s'. destruct e as [| |o now|value|]; simpl;
    try reflexivity.
  - (* a request settles *)
    unfold fetchReadings_settle, fetchReadings_try.
    destruct o as [err|response]; simpl.
    + eexists. intros s0. reflexivity.
    + destruct (ok response); simpl.
      * destruct (json_body response) as [err|data]; simpl.
        -- eexists. intros s0. reflexivity.
        -- reflexivity.
      * eexists. intros s0. reflexivity.
  - (* the form is submitted *)
    rewrite handleSubmit_eq.
    destruct (is_finite_positive_integer (parseInt (limitInput s))).
    + unfold fetchReadings, useEffect_poll, fetchReadings.
      match goal with |- context [Object_is ?a ?b] =>
        destruct (Object_is a b) end; reflexivity.
    + simpl. rewrite Object_is_refl. reflexivity.
Qed.

(** C6 as stated fails.  After a first successful poll, submitting the
    emptied input sets the validation message; the next tick of the timer
    clears it, while the input is still invalid and nothing was
    resubmitted. *)
Lemma validation_error_cleared_by_tick :
  let s := run Home_init
             [Mount; Settle (Resolved (ok_response (JArray []))) 1000;
              Change EmptyString; Submit] in
  error s = Some validation_message
  /\ error (fst (step s Tick)) = None
  /\ limitInput (fst (step s Tick)) = EmptyString
  /\ limit (fst (step s Tick)) = DEFAULT_LIMIT.
Proof. repeat split. Qed.

(** * Further properties of the stats aggregator *)

Lemma Math_min_from_NaN (args : list number) (lowest : number) :
  existsb Number_isNaN args = true -> Math_min_from lowest args = NaN.
Proof.
  revert lowest. induction args as [|x rest IH]; intros lowest H; simpl in *.
  - discriminate.
  - destruct (Number_isNaN x); [reflexivity|]. apply IH, H.
Qed.

Lemma Math_max_from_NaN (args : list number) (highest : number) :
  existsb Number_isNaN args = true -> Math_max_from highest args = NaN.
Proof.
  revert highest. induction args as [|x rest IH]; intros highest H; simpl in *.
  - discriminate.
  - destruct (Number_isNaN x); [reflexivity|]. apply IH, H.
Qed.

Lemma add_NaN_l (y : number) : add NaN y = NaN.
Proof. reflexivity. Qed.

Lemma add_NaN_r (x : number) : add x NaN = NaN.
Proof. destruct x; reflexivity. Qed.

Lemma fold_add_NaN (values : list number) (acc : number) :
  Number_isNaN acc = true \/ existsb Number_isNaN values = true ->
  fold_left add values acc = NaN.
Proof.
  revert acc. induction values as [|x rest IH]; intros acc H; simpl in *.
  - destruct H as [H|H]; [|discriminate]. destruct acc; try discriminate.
    reflexivity.
  - apply IH. destruct H as [H|H].
    + left. destruct acc; try discriminate. reflexivity.
    + destruct (Number_isNaN x) eqn:Hx; [left|right; exact H].
      destruct x; try discriminate. rewrite add_NaN_r. reflexivity.
Qed.

(** [collectStats] does not filter by itself: a single NaN among the values
    makes [min], [max] and [average] NaN, while [count] still counts every
    value.  This is why the page filters before it aggregates. *)
Theorem collectStats_poisoned_by_NaN :
  forall values : list number,
    existsb Number_isNaN values = true ->
    collectStats values
    = Some {| Stats.min := NaN; Stats.max := NaN; Stats.average := NaN;
              Stats.count := List.length values |}.
Proof.
  intros values H. destruct values as [|x rest]; [discriminate|].
  unfold collectStats, Math_min, Math_max.
  rewrite (Math_min_from_NaN _ _ H), (Math_max_from_NaN _ _ H).
  change (fold_left (fun sum value => add sum value) (x :: rest) #0)
    with (fold_left add (x :: rest) #0).
  rewrite (fold_add_NaN (x :: rest) #0 (or_intror H)). reflexivity.
Qed.

Lemma collectStats_poisoned_by_NaN_witness :
  collectStats [#3; NaN; #4]
  = Some {| Stats.min := NaN; Stats.max := NaN; Stats.average := NaN;
            Stats.count := 3 |}.
Proof. apply (collectStats_poisoned_by_NaN [#3; NaN; #4]). reflexivity. Defined.

(** A reading whose temperature (humidity) is not finite does not count:
    with or without it, anywhere in the window, the temperature (humidity)
    statistics are the same. *)
Theorem stats_unchanged_by_non_finite_reading :
  forall (before after : list Reading) (reading : Reading),
    (Number_isFinite (temperature reading) = false ->
     temperatureStats (before ++ reading :: after)
     = temperatureStats (before ++ after))
    /\ (Number_isFinite (humidity reading) = false ->
        humidityStats (before ++ reading :: after)
        = humidityStats (before ++ after)).
Proof.
  intros before after reading. unfold temperatureStats, humidityStats.
  split; intros H; rewrite !map_app, !filter_app; simpl; rewrite H;
    reflexivity.
Qed.

Lemma stats_unchanged_by_non_finite_reading_witness :
  temperatureStats ([sample #20 #40] ++ sample Infinity #41 :: [sample #22 #42])
  = temperatureStats ([sample #20 #40] ++ [sample #22 #42]).
Proof.
  apply (proj1 (stats_unchanged_by_non_finite_reading
                  [sample #20 #40] [sample #22 #42] (sample Infinity #41))).
  reflexivity.
Defined.

Lemma filter_length_le {A : Type} (f : A -> bool) (l : list A) :
  (List.length (filter f l) <= List.length l)%nat.
Proof. induction l as [|x l IH]; simpl; [lia|]. destruct (f x); simpl; lia. Qed.

Lemma summarises_bounds (st : Stats.t) (values : list number) :
  summarises (Some st) (finite_values values) ->
  (1 <= Stats.count st <= List.length values)%nat
  /\ Number_isFinite (Stats.min st) = true
  /\ Number_isFinite (Stats.max st) = true
  /\ le (Stats.min st) (Stats.max st) = true.
Proof.
  intros (Hne & [Imin Amin] & [Imax Amax] & _ & Hc).
  pose proof (finite_values_finite values) as Hfin.
  rewrite Forall_forall in Hfin, Amin.
  repeat split.
  - rewrite Hc. destruct (finite_values values); [congruence|simpl; lia].
  - rewrite Hc. apply filter_length_le.
  - apply Hfin, Imin.
  - apply Hfin, Imax.
  - apply Amin, Imax.
Qed.

(** Whenever the page has statistics to show, [count] is at least 1 and at
    most the size of the window, [min] and [max] are finite, and
    [min <= max]. *)
Theorem stats_record_is_well_formed :
  forall (readings : list Reading) (st : Stats.t),
    temperatureStats readings = Some st \/ humidityStats readings = Some st ->
    (1 <= Stats.count st <= List.length readings)%nat
    /\ Number_isFinite (Stats.min st) = true
    /\ Number_isFinite (Stats.max st) = true
    /\ le (Stats.min st) (Stats.max st) = true.
Proof.
  intros readings st [H|H].
  - pose proof (collectStats_summarises _
                  (finite_values_finite (map temperature readings))) as S.
    change (collectStats (finite_values (map temperature readings)))
      with (temperatureStats readings) in S.
    rewrite H in S. apply summarises_bounds in S.
    rewrite length_map in S. exact S.
  - pose proof (collectStats_summarises _
                  (finite_values_finite (map humidity readings))) as S.
    change (collectStats (finite_values (map humidity readings)))
      with (humidityStats readings) in S.
    rewrite H in S. apply summarises_bounds in S.
    rewrite length_map in S. exact S.
Qed.

Lemma stats_record_is_well_formed_witness :
  let readings := [sample #20 #40; sample NaN #41; sample #18 #39] in
  let st := {| Stats.min := #18; Stats.max := #20; Stats.average := #19;
               Stats.count := 2 |} in
  (1 <= Stats.count st <= List.length readings)%nat
  /\ Number_isFinite (Stats.min st) = true
  /\ Number_isFinite (Stats.max st) = true
  /\ le (Stats.min st) (Stats.max st) = true.
Proof.
  apply (stats_record_is_well_formed
           [sample #20 #40; sample NaN #41; sample #18 #39]).
  left. vm_compute. reflexivity.
Defined.

(** The count a card shows, [stats?.count ?? 0], is the number of finite
    values of its field in the window, 0 included; the card shows the
    placeholders exactly when no reading has a finite value of that
    field. *)
Theorem StatCard_counts_finite_values :
  forall readings : list Reading,
    CardView.count (StatCard (temperatureStats readings))
    = List.length (finite_values (map temperature readings))
    /\ CardView.count (StatCard (humidityStats readings))
       = List.length (finite_values (map humidity readings))
    /\ (CardView.placeholder (StatCard (temperatureStats readings)) = true
        <-> Forall (fun r => Number_isFinite (temperature r) = false) readings)
    /\ (CardView.placeholder (StatCard (humidityStats readings)) = true
        <-> Forall (fun r => Number_isFinite (humidity r) = false) readings).
Proof.
  intros readings.
  assert (G : forall field : Reading -> number,
            let stats := collectStats (finite_values (map field readings)) in
            CardView.count (StatCard stats)
            = List.length (finite_values (map field readings))
            /\ (CardView.placeholder (StatCard stats) = true
                <-> Forall (fun r => Number_isFinite (field r) = false)
                           readings)).
  { intros field stats.
    assert (E : finite_values (map field readings) = []
                <-> Forall (fun r => Number_isFinite (field r) = false)
                           readings).
    { unfold finite_values. induction readings as [|r rest IH]; simpl.
      - split; auto.
      - destruct (Number_isFinite (field r)) eqn:Hr.
        + split; [discriminate|]. intros H. inversion H; congruence.
        + rewrite IH. split; intros H; [constructor; assumption|].
          inversion H; assumption. }
    unfold stats. destruct (finite_values (map field readings)) eqn:Hv; simpl.
    - split; [reflexivity|]. split; intros _; [apply E; reflexivity|reflexivity].
    - split; [reflexivity|]. split; [discriminate|].
      intros H. apply E in H. discriminate. }
  destruct (G temperature) as [T1 T2]. destruct (G humidity) as [H1 H2].
  repeat split; try assumption; try apply T2; try apply H2.
Qed.

Lemma finite_values_perm (l l' : list number) :
  Permutation l l' -> Permutation (finite_values l) (finite_values l').
Proof.
  unfold finite_values.
  induction 1 as [|x l l' _ IH|x y l|l l' l'' _ IH1 _ IH2]; simpl.
  - constructor.
  - destruct (Number_isFinite x); [constructor|]; exact IH.
  - destruct (Number_isFinite x), (Number_isFinite y);
      try apply Permutation_refl. constructor.
  - eapply Permutation_trans; eassumption.
Qed.

Lemma summarises_perm (a b : option Stats.t) (values values' : list number) :
  Permutation values values' ->
  summarises a values -> summarises b values' ->
  same_extrema_and_count a b.
Proof.
  intros P Ha Hb. unfold same_extrema_and_count.
  destruct a as [st|], b as [st'|]; simpl in Ha, Hb.
  - destruct Ha as (_ & [Im Am] & [IM AM] & _ & C).
    destruct Hb as (_ & [Im' Am'] & [IM' AM'] & _ & C').
    rewrite Forall_forall in Am, Am', AM, AM'.
    repeat split.
    + apply Am. apply (Permutation_in _ (Permutation_sym P)), Im'.
    + apply Am'. apply (Permutation_in _ P), Im.
    + apply AM'. apply (Permutation_in _ P), IM.
    + apply AM. apply (Permutation_in _ (Permutation_sym P)), IM'.
    + rewrite C, C'. apply Permutation_length, P.
  - subst values'. destruct Ha as [Hne _].
    apply Permutation_sym, Permutation_nil in P. contradiction.
  - subst values. destruct Hb as [Hne _].
    apply Permutation_nil in P. contradiction.
  - exact I.
Qed.

(** The extrema and the count do not depend on the order of the window:
    for two windows with the same readings in any order, the statistics are
    both absent or both present, with numerically equal [min], numerically
    equal [max] and the same [count]. *)
Theorem stats_do_not_depend_on_order :
  forall readings readings' : list Reading,
    Permutation readings readings' ->
    same_extrema_and_count (temperatureStats readings)
                           (temperatureStats readings')
    /\ same_extrema_and_count (humidityStats readings)
                              (humidityStats readings').
Proof.
  intros readings readings' P. split.
  - apply (summarises_perm _ _ (finite_values (map temperature readings))
                               (finite_values (map temperature readings'))).
    + apply finite_values_perm, Permutation_map, P.
    + apply collectStats_summarises, finite_values_finite.
    + apply collectStats_summarises, finite_values_finite.
  - apply (summarises_perm _ _ (finite_values (map humidity readings))
                               (finite_values (map humidity readings'))).
    + apply finite_values_perm, Permutation_map, P.
    + apply collectStats_summarises, finite_values_finite.
    + apply collectStats_summarises, finite_values_finite.
Qed.

Lemma stats_do_not_depend_on_order_witness :
  same_extrema_and_count
    (temperatureStats [sample #20 #40; sample #18 #41])
    (temperatureStats [sample #18 #41; sample #20 #40])
  /\ same_extrema_and_count
       (humidityStats [sample #20 #40; sample #18 #41])
       (humidityStats [sample #18 #41; sample #20 #40]).
Proof.
  apply (stats_do_not_depend_on_order
           [sample #20 #40; sample #18 #41] [sample #18 #41; sample #20 #40]).
  apply perm_swap.
Defined.

(** * Further properties of the gauges *)

Lemma quotient_not_NaN (v min max : number) :
  Number_isNaN v = false ->
  Number_isFinite (sub max min) = true ->
  Number_isNaN (div (sub v min) (Math_max [sub max min; #1])) = false.
Proof.
  intros Hv Hw.
  destruct (sub_finite_inv _ _ Hw) as [_ Hmin].
  destruct (span_at_least_one (sub max min)
              (NumberOrder.finite_not_NaN _ Hw)) as (_ & Ls & Ms).
  pose proof (sub_not_NaN _ _ Hv Hmin) as Hnum.
  assert (Hspan : exists s m e,
             Math_max [sub max min; #1] = S754_finite s m e).
  { destruct Ms as [E|E].
    - rewrite E in *. destruct (sub max min) as [[]|[]| |s m e];
        try discriminate; eauto.
    - rewrite E. vm_compute. eauto. }
  destruct Hspan as (s & m & e & ->).
  apply div_not_NaN. exact Hnum.
Qed.

Lemma shown_gauge_percent (value : option number) (min max : number) :
  Number_isFinite (sub max min) = true ->
  Gauge.isEmpty (GaugeArc value min max) = false ->
  le #0 (Gauge.percent (GaugeArc value min max)) = true
  /\ le (Gauge.percent (GaugeArc value min max)) #1 = true.
Proof.
  intros Hw He. unfold GaugeArc in *. cbn [Gauge.percent Gauge.isEmpty] in *.
  apply (clamp_unit_interval
           (div (sub match value with Some v => v | None => #0 end min)
                (Math_max [sub max min; #1]))).
  apply quotient_not_NaN; [|exact Hw].
  destruct value; [exact He|discriminate].
Qed.

(** The two gauges of the page, over the ranges 0 to 50 and 0 to 100: a
    gauge is empty exactly when the window is empty or the value of its
    first reading is NaN; a gauge that is not empty has its percent in
    [0, 1]; with an empty window the percent is 0. *)
Theorem page_gauges_empty_or_in_range :
  forall readings : list Reading,
    (Gauge.isEmpty (temperatureGauge readings) = true
     <-> readings = []
         \/ exists latest rest,
              readings = latest :: rest
              /\ Number_isNaN (temperature latest) = true)
    /\ (Gauge.isEmpty (humidityGauge readings) = true
        <-> readings = []
            \/ exists latest rest,
                 readings = latest :: rest
                 /\ Number_isNaN (humidity latest) = true)
    /\ (Gauge.isEmpty (temperatureGauge readings) = false ->
        le #0 (Gauge.percent (temperatureGauge readings)) = true
        /\ le (Gauge.percent (temperatureGauge readings)) #1 = true)
    /\ (Gauge.isEmpty (humidityGauge readings) = false ->
        le #0 (Gauge.percent (humidityGauge readings)) = true
        /\ le (Gauge.percent (humidityGauge readings)) #1 = true)
    /\ (readings = [] ->
        Gauge.percent (temperatureGauge readings) = #0
        /\ Gauge.percent (humidityGauge readings) = #0).
Proof.
  intros readings. split; [|split; [|split; [|split]]].
  - destruct readings as [|latest rest]; simpl.
    + split; auto.
    + split.
      * intros H. right. eauto.
      * intros [H|(l & r & [= <- <-] & H)]; [discriminate|exact H].
  - destruct readings as [|latest rest]; simpl.
    + split; auto.
    + split.
      * intros H. right. eauto.
      * intros [H|(l & r & [= <- <-] & H)]; [discriminate|exact H].
  - apply shown_gauge_percent. reflexivity.
  - apply shown_gauge_percent. reflexivity.
  - intros ->. split; vm_compute; reflexivity.
Qed.

Lemma page_gauges_empty_or_in_range_witness :
  le #0 (Gauge.percent (temperatureGauge [sample #61 #40])) = true
  /\ le (Gauge.percent (temperatureGauge [sample #61 #40])) #1 = true.
Proof.
  apply (proj1 (proj2 (proj2 (page_gauges_empty_or_in_range
                                [sample #61 #40])))).
  reflexivity.
Defined.

(** The percent saturates.  With [q = (value - min) / span], a missing value
    read as 0: the percent is 0 when [q < 0], 1 when [q > 1], and [q]
    itself when [0 <= q <= 1] (a negative zero becoming 0). *)
Theorem gauge_percent_saturates :
  forall (value : option number) (min max : number),
    let g := GaugeArc value min max in
    let q := div (sub (Gauge.safeValue g) min) (Gauge.span g) in
    (lt q #0 = true -> Gauge.percent g = #0)
    /\ (lt #1 q = true -> Gauge.percent g = #1)
    /\ (le #0 q = true -> le q #1 = true ->
        Gauge.percent g = if is_neg_zero q then #0 else q).
Proof.
  intros value min max g q.
  change (Gauge.percent g) with (clamp q #0 #1).
  split; [|split].
  - apply clamp_below.
  - apply clamp_above.
  - apply clamp_inside.
Qed.

Lemma gauge_percent_saturates_witness :
  Gauge.percent (GaugeArc (Some #75) #0 #50) = #1.
Proof.
  apply (proj1 (proj2 (gauge_percent_saturates (Some #75) #0 #50))).
  vm_compute. reflexivity.
Defined.

Lemma sub_self (x : number) : Number_isFinite x = true -> sub x x = #0.
Proof.
  destruct x as [[]|[]| |s m e]; try discriminate; try reflexivity.
  intros _. unfold sub, SFsub. rewrite Z.sub_diag. reflexivity.
Qed.

(** A value that equals the lower bound of a range of finite width maps to
    percent 0, and the gauge is not empty. *)
Theorem gauge_at_lower_bound :
  forall min max : number,
    Number_isFinite (sub max min) = true ->
    Gauge.percent (GaugeArc (Some min) min max) = #0
    /\ Gauge.isEmpty (GaugeArc (Some min) min max) = false.
Proof.
  intros min max Hw.
  destruct (sub_finite_inv _ _ Hw) as [_ Hmin].
  split; [|apply NumberOrder.finite_not_NaN, Hmin].
  unfold GaugeArc. cbn [Gauge.percent].
  rewrite (sub_self _ Hmin).
  destruct (span_at_least_one (sub max min)
              (NumberOrder.finite_not_NaN _ Hw)) as (_ & Ls & Ms).
  assert (Hspan : exists m e,
             Math_max [sub max min; #1] = S754_finite false m e).
  { destruct Ms as [E|E].
    - rewrite E in *. destruct (sub max min) as [[]|[]| |[] m e];
        try discriminate; eauto.
    - rewrite E. vm_compute. eauto. }
  destruct Hspan as (m & e & ->). reflexivity.
Qed.

Lemma gauge_at_lower_bound_witness :
  Gauge.percent (GaugeArc (Some #10) #10 #30) = #0
  /\ Gauge.isEmpty (GaugeArc (Some #10) #10 #30) = false.
Proof. apply (gauge_at_lower_bound #10 #30). reflexivity. Defined.

(** * The component over whole runs *)

Lemma run_app (s : HomeState) (es es' : list event) :
  run s (es ++ es') = run (run s es) es'.
Proof. revert s. induction es as [|e es IH]; intros s; simpl; auto. Qed.

Lemma settle_window (s : HomeState) (o : outcome) (now : Z) :
  match new_window o with
  | Some items =>
      readings (fetchReadings_settle o now s) = items
      /\ lastUpdated (fetchReadings_settle o now s) = Some now
  | None =>
      readings (fetchReadings_settle o now s) = readings s
      /\ lastUpdated (fetchReadings_settle o now s) = lastUpdated s
  end.
Proof.
  unfold fetchReadings_settle, fetchReadings_try, new_window.
  destruct o as [err|response]; simpl; [auto|].
  destruct (ok response); simpl; [|auto].
  destruct (json_body response) as [err|[]]; simpl; auto.
Qed.

Lemma step_window (s : HomeState) (e : event) :
  is_success e = false ->
  readings (fst (step s e)) = readings s
  /\ lastUpdated (fst (step s e)) = lastUpdated s.
Proof.
  destruct e as [| |o now|value|]; simpl; auto.
  - intros H. pose proof (settle_window s o now) as W.
    destruct (new_window o); [discriminate|exact W].
  - intros _. rewrite handleSubmit_eq.
    destruct (is_finite_positive_integer (parseInt (limitInput s))); simpl.
    + match goal with |- context [Object_is ?a ?b] =>
        destruct (Object_is a b) end; auto.
    + rewrite Object_is_refl. auto.
Qed.

Lemma run_window (es : list event) :
  forall s : HomeState,
    forallb (fun e => negb (is_success e)) es = true ->
    readings (run s es) = readings s
    /\ lastUpdated (run s es) = lastUpdated s.
Proof.
  induction es as [|e es IH]; intros s H; simpl in *; [auto|].
  apply andb_prop in H. destruct H as [He Hes].
  apply negb_true_iff in He.
  destruct (IH (fst (step s e)) Hes) as [-> ->].
  apply step_window, He.
Qed.

(** Along every run, the window and the last-updated time are those of the
    last poll that succeeded: whatever happened before it, and whatever
    failures, ticks, edits and submissions came after it. *)
Theorem window_is_last_successful_payload :
  forall (s : HomeState) (before after : list event)
         (o : outcome) (now : Z) (items : list Reading),
    new_window o = Some items ->
    forallb (fun e => negb (is_success e)) after = true ->
    readings (run s (before ++ Settle o now :: after)) = items
    /\ lastUpdated (run s (before ++ Settle o now :: after)) = Some now.
Proof.
  intros s before after o now items Ho Hafter.
  rewrite run_app. simpl.
  destruct (run_window after
              (fetchReadings_settle o now (run s before)) Hafter) as [-> ->].
  pose proof (settle_window (run s before) o now) as W.
  rewrite Ho in W. exact W.
Qed.

Lemma window_is_last_successful_payload_witness :
  let es := [Mount; Settle (Resolved (ok_response (JArray [sample #21 #40]))) 1000;
             Tick; Settle (Rejected NotAnError) 2000; Change "7"; Submit] in
  readings (run Home_init es) = [sample #21 #40]
  /\ lastUpdated (run Home_init es) = Some 1000.
Proof.
  apply (window_is_last_successful_payload Home_init [Mount]
           [Tick; Settle (Rejected NotAnError) 2000; Change "7"; Submit]
           (Resolved (ok_response (JArray [sample #21 #40]))) 1000).
  - reflexivity.
  - reflexivity.
Defined.

(** From the initial state, as long as no poll has succeeded the window is
    empty and there is no last-updated time; and in every state that can be
    reached, a missing last-updated time means an empty window. *)
Theorem window_empty_until_first_success :
  forall es : list event,
    (forallb (fun e => negb (is_success e)) es = true ->
     readings (run Home_init es) = []
     /\ lastUpdated (run Home_init es) = None)
    /\ (lastUpdated (run Home_init es) = None ->
        readings (run Home_init es) = []).
Proof.
  intros es. split.
  - intros H. apply (run_window es Home_init H).
  - assert (G : forall s, (lastUpdated s = None -> readings s = []) ->
                lastUpdated (run s es) = None -> readings (run s es) = []).
    { induction es as [|e es IH]; intros s Hs; simpl; [exact Hs|].
      apply IH. destruct (is_success e) eqn:He.
      - destruct e as [| |o now|value|]; try discriminate.
        change (fst (step s (Settle o now)))
          with (fetchReadings_settle o now s).
        pose proof (settle_window s o now) as W. unfold is_success in He.
        destruct (new_window o); [|discriminate].
        destruct W as [_ W]. rewrite W. discriminate.
      - destruct (step_window s e He) as [-> ->]. exact Hs. }
    apply G. reflexivity.
Qed.

Lemma window_empty_until_first_success_witness :
  readings (run Home_init [Mount; Settle (Rejected NotAnError) 500; Tick]) = []
  /\ lastUpdated (run Home_init [Mount; Settle (Rejected NotAnError) 500; Tick])
     = None.
Proof.
  apply (proj1 (window_empty_until_first_success
                  [Mount; Settle (Rejected NotAnError) 500; Tick])).
  reflexivity.
Defined.

(** ** The limit *)

Lemma step_limit (s : HomeState) (e : event) :
  is_finite_positive_integer (limit s) = true ->
  is_finite_positive_integer (limit (fst (step s e))) = true
  /\ Forall (fun l => l = limit (fst (step s e))) (snd (step s e)).
Proof.
  intros H. destruct e as [| |o now|value|]; simpl; auto.
  - (* a request settles: the limit is not touched *)
    split; [|constructor].
    unfold fetchReadings_settle, fetchReadings_try.
    destruct o as [err|response]; simpl; [exact H|].
    destruct (ok response); simpl; [|exact H].
    destruct (json_body response); exact H.
  - rewrite handleSubmit_eq.
    destruct (is_finite_positive_integer (parseInt (limitInput s))) eqn:Hp;
      simpl.
    + match goal with |- context [Object_is ?a ?b] =>
        destruct (Object_is a b) end; simpl; auto.
    + rewrite Object_is_refl. simpl. auto.
Qed.

(** The limit is a finite positive integer throughout: from a state where
    it is one (the initial state, with 20), it is one after every run, and
    every request issued along the run asks for a finite positive
    integer. *)
Theorem limit_stays_positive_integer :
  forall (s : HomeState) (es : list event),
    is_finite_positive_integer (limit s) = true ->
    is_finite_positive_integer (limit (run s es)) = true
    /\ Forall (fun l => is_finite_positive_integer l = true)
              (issued_along s es).
Proof.
  intros s es. revert s. induction es as [|e es IH]; intros s H; simpl.
  - auto.
  - destruct (step_limit s e H) as [H' Hreq].
    destruct (IH _ H') as [IH1 IH2]. split; [exact IH1|].
    apply Forall_app. split; [|exact IH2].
    eapply Forall_impl; [|exact Hreq]. intros l ->. exact H'.
Qed.

Lemma limit_stays_positive_integer_witness :
  let es := [Mount; Change "-4"; Submit; Change "7"; Submit; Tick] in
  is_finite_positive_integer (limit (run Home_init es)) = true
  /\ Forall (fun l => is_finite_positive_integer l = true)
            (issued_along Home_init es).
Proof.
  apply (limit_stays_positive_integer Home_init
           [Mount; Change "-4"; Submit; Change "7"; Submit; Tick]).
  reflexivity.
Defined.


(** * The effect and its interval *)

Lemma settle_limit (o : outcome) (now : Z) (s : HomeState) :
  limit (fetchReadings_settle o now s) = limit s.
Proof.
  unfold fetchReadings_settle, fetchReadings_try.
  destruct o as [err|response]; simpl; [reflexivity|].
  destruct (ok response); simpl; [|reflexivity].
  destruct (json_body response); reflexivity.
Qed.

Lemma Object_is_eq (x y : number) : Object_is x y = true -> x = y.
Proof.
  destruct x as [s|s| |s m e], y as [t|t| |t n f]; simpl;
    try discriminate; try reflexivity.
  - intros H. apply eqb_prop in H. congruence.
  - intros H. apply eqb_prop in H. congruence.
  - intros H. apply andb_prop in H. destruct H as [H He].
    apply andb_prop in H. destruct H as [Hs Hm].
    apply eqb_prop in Hs. apply Pos.eqb_eq in Hm. apply Z.eqb_eq in He.
    congruence.
Qed.


Lemma mounted_one_live_interval (rt : Runtime) :
  mounted rt -> one_live_interval rt.
Proof.
  induction 1 as [|rt h' _ (h & Hi & Hc & Hn)|rt o now _ (h & Hi & Hc & Hn)
                  |rt value _ (h & Hi & Hc & Hn)|rt _ (h & Hi & Hc & Hn)].
  - exists 0%nat. simpl. auto.
  - cbn [act]. rewrite Hi. cbn [find fst].
    destruct (Nat.eqb h h'); exists h; cbn; auto.
  - exists h. cbn [act fst with_view view intervals cleanup next_handle].
    rewrite settle_limit. auto.
  - exists h. cbn. auto.
  - cbn [act]. rewrite handleSubmit_eq.
    destruct (is_finite_positive_integer (parseInt (limitInput (view rt)))).
    + cbn [fetchReadings fst snd setLimit setError setIsFetching limit].
      destruct (Object_is (limit (view rt)) (parseInt (limitInput (view rt))))
        eqn:Hsame.
      * (* the same limit: the dependencies of the effect are unchanged *)
        exists h. cbn. rewrite <- (Object_is_eq _ _ Hsame). auto.
      * (* a new limit: the old interval is cleared, a new one installed *)
        unfold effect_cleanup, effect_run. cbn. rewrite Hc. cbn.
        rewrite Hi. cbn. rewrite Nat.eqb_refl. cbn.
        exists (next_handle rt). auto.
    + cbn. rewrite Object_is_refl. exists h. cbn. auto.
Qed.

(** While the component is mounted exactly one interval is live, also
    after any number of limit changes; when it fires it polls with the limit
    that is current, and a handle that was cleared does nothing. *)
Theorem mounted_interval_polls_current_limit :
  forall rt : Runtime,
    mounted rt ->
    exists h,
      intervals rt = [(h, limit (view rt))]
      /\ snd (act rt (AFire h)) = [limit (view rt)]
      /\ (forall h', h' <> h ->
            act rt (AFire h') = (rt, [])).
Proof.
  intros rt Hm. destruct (mounted_one_live_interval rt Hm) as (h & Hi & _ & _).
  exists h. split; [exact Hi|]. split.
  - cbn [act]. rewrite Hi. cbn. rewrite Nat.eqb_refl. reflexivity.
  - intros h' Hne. cbn [act]. rewrite Hi. cbn.
    destruct (Nat.eqb h h') eqn:E; [|reflexivity].
    apply Nat.eqb_eq in E. congruence.
Qed.

Lemma mounted_interval_polls_current_limit_witness :
  let rt := fst (act (fst (act (fst (act Runtime_init AMount))
                               (AChange "7"))) ASubmit) in
  exists h,
    intervals rt = [(h, limit (view rt))]
    /\ snd (act rt (AFire h)) = [limit (view rt)]
    /\ (forall h', h' <> h -> act rt (AFire h') = (rt, [])).
Proof.
  apply (mounted_interval_polls_current_limit
           (fst (act (fst (act (fst (act Runtime_init AMount))
                               (AChange "7"))) ASubmit))).
  apply mounted_submit, mounted_change, mounted_first.
Defined.

(** After the unmount no interval is live. *)
Lemma unmounted_no_interval (rt : Runtime) :
  unmounted rt -> intervals rt = [] /\ cleanup rt = None.
Proof.
  induction 1 as [rt Hm|rt h _ [Hi Hc]|rt o now _ [Hi Hc]].
  - destruct (mounted_one_live_interval rt Hm) as (h & Hi & Hc & _).
    cbn [act fst]. unfold effect_cleanup. rewrite Hc. cbn. rewrite Hi. cbn.
    rewrite Nat.eqb_refl. auto.
  - cbn [act]. rewrite Hi. cbn. auto.
  - cbn. auto.
Qed.

(** After the unmount no interval is left: whichever handle comes due,
    nothing changes and no request is issued; requests that settle late
    issue none either. *)
Theorem unmounted_never_polls :
  forall rt : Runtime,
    unmounted rt ->
    intervals rt = []
    /\ (forall h, act rt (AFire h) = (rt, []))
    /\ (forall o now, snd (act rt (ASettle o now)) = []).
Proof.
  intros rt Hu. destruct (unmounted_no_interval rt Hu) as [Hi _].
  split; [exact Hi|]. split.
  - intros h. cbn [act]. rewrite Hi. reflexivity.
  - reflexivity.
Qed.

Lemma unmounted_never_polls_witness :
  let rt := fst (act (fst (act (fst (act Runtime_init AMount))
                               (AChange "7"))) AUnmount) in
  intervals rt = []
  /\ (forall h, act rt (AFire h) = (rt, []))
  /\ (forall o now, snd (act rt (ASettle o now)) = []).
Proof.
  apply (unmounted_never_polls
           (fst (act (fst (act (fst (act Runtime_init AMount))
                               (AChange "7"))) AUnmount))).
  apply unmounted_first, mounted_change, mounted_first.
Defined.

(** On a mounted component the runtime moves the state as the transition
    system does: the live interval's firing is a [Tick], and settling,
    editing and submitting are the events of the same name. *)
Lemma act_as_step (rt : Runtime) :
  mounted rt ->
  (forall h, In h (map fst (intervals rt)) ->
     (view (fst (act rt (AFire h))), snd (act rt (AFire h)))
     = step (view rt) Tick)
  /\ (forall o now,
        (view (fst (act rt (ASettle o now))), snd (act rt (ASettle o now)))
        = step (view rt) (Settle o now))
  /\ (forall value,
        (view (fst (act rt (AChange value))), snd (act rt (AChange value)))
        = step (view rt) (Change value))
  /\ (view (fst (act rt ASubmit)), snd (act rt ASubmit))
     = step (view rt) Submit.
Proof.
  intros Hm. destruct (mounted_one_live_interval rt Hm) as (h0 & Hi & Hc & _).
  split; [|split; [|split]].
  - intros h Hh. rewrite Hi in Hh. destruct Hh as [<-|[]].
    cbn [act]. rewrite Hi. cbn. rewrite Nat.eqb_refl. reflexivity.
  - reflexivity.
  - reflexivity.
  - cbn [act step]. destruct (handleSubmit (view rt)) as [s' issued].
    destruct (Object_is (limit (view rt)) (limit s')); [reflexivity|].
    unfold effect_run, effect_cleanup, useEffect_poll, fetchReadings.
    cbn. rewrite Hc. reflexivity.
Qed.

(** * Reading numerals *)


Lemma digits_from_tail (acc : option Z) (tail : string) :
  ends_numeral tail -> digits_from acc tail = acc.
Proof.
  destruct tail as [|c rest]; simpl; [reflexivity|].
  unfold is_digit. destruct (digit_value c); [discriminate|reflexivity].
Qed.

Lemma digits_from_uint (d : Decimal.uint) (tail : string) (acc : Z) :
  ends_numeral tail ->
  digits_from (Some acc) (NilEmpty.string_of_uint d ++ tail)
  = Some (read_uint d acc).
Proof.
  intros Ht. revert acc.
  induction d as [|d IH|d IH|d IH|d IH|d IH|d IH|d IH|d IH|d IH|d IH];
    intros acc; simpl; try (rewrite IH; reflexivity).
  apply digits_from_tail, Ht.
Qed.

Lemma digits_from_uint_start (d : Decimal.uint) (tail : string) :
  ends_numeral tail -> d <> Decimal.Nil ->
  digits_from None (NilEmpty.string_of_uint d ++ tail)
  = Some (read_uint d 0).
Proof.
  intros Ht Hd. destruct d; [congruence|..]; simpl;
    rewrite digits_from_uint by exact Ht; reflexivity.
Qed.

Lemma read_uint_pos (d : Decimal.uint) (p : positive) :
  read_uint d (Z.pos p) = Z.pos (Pos.of_uint_acc d p).
Proof.
  revert p. induction d; intros p; cbn [read_uint Pos.of_uint_acc];
    try reflexivity; rewrite <- IHd; f_equal; lia.
Qed.

Lemma read_uint_zero (d : Decimal.uint) :
  read_uint d 0 = Z.of_N (Pos.of_uint d).
Proof.
  induction d; cbn [read_uint Pos.of_uint]; try reflexivity;
    try exact IHd; cbn [Z.mul Z.add Z.of_N]; apply read_uint_pos.
Qed.

Lemma read_numeral (n : N) (tail : string) :
  ends_numeral tail ->
  digits_from None (numeral n ++ tail) = Some (Z.of_N n).
Proof.
  intros Ht. unfold numeral, string_of_status, NilZero.string_of_uint.
  assert (Hd : N.to_uint n <> Decimal.Nil).
  { destruct n; simpl; [discriminate|apply DecimalPos.Unsigned.to_uint_nonnil]. }
  destruct (N.to_uint n) eqn:E; [congruence|..];
    rewrite <- E; rewrite digits_from_uint_start by (assumption || congruence);
    rewrite read_uint_zero;
    change (Pos.of_uint (N.to_uint n)) with (N.of_uint (N.to_uint n));
    rewrite DecimalN.Unsigned.of_to; reflexivity.
Qed.

Lemma numeral_head (n : N) :
  exists c rest, numeral n = String c rest /\ is_digit c = true.
Proof.
  unfold numeral, string_of_status, NilZero.string_of_uint.
  assert (Hd : N.to_uint n <> Decimal.Nil).
  { destruct n; simpl; [discriminate|apply DecimalPos.Unsigned.to_uint_nonnil]. }
  destruct (N.to_uint n); [congruence|..]; simpl; eauto.
Qed.

(** ** Small integers are represented exactly, as finite numbers *)

Lemma digits2_pos_lower (m : positive) :
  2 ^ (Z.pos (digits2_pos m) - 1) <= Z.pos m.
Proof.
  induction m as [m IH|m IH|]; cbn [digits2_pos].
  - rewrite Pos2Z.inj_succ.
    replace (Z.succ (Z.pos (digits2_pos m)) - 1)
      with (Z.succ (Z.pos (digits2_pos m) - 1)) by lia.
    rewrite Z.pow_succ_r by lia. lia.
  - rewrite Pos2Z.inj_succ.
    replace (Z.succ (Z.pos (digits2_pos m)) - 1)
      with (Z.succ (Z.pos (digits2_pos m) - 1)) by lia.
    rewrite Z.pow_succ_r by lia. lia.
  - simpl. lia.
Qed.

Lemma binary_round_small (s : bool) (m : positive) :
  Z.pos m < 2 ^ 53 ->
  exists m' e', binary_round prec emax s m 0 = S754_finite s m' e'.
Proof.
  intros Hm.
  pose proof (digits2_pos_lower m) as Hlow.
  set (d := Z.pos (digits2_pos m)) in *.
  assert (Hd : d <= 53).
  { destruct (Z_le_gt_dec d 53) as [H|H]; [exact H|exfalso].
    assert (2 ^ 53 <= 2 ^ (d - 1)) by (apply Z.pow_le_mono_r; lia). lia. }
  assert (Hd0 : 0 < d) by (subst d; lia).
  unfold binary_round, shl_align.
  assert (Hf : fexp prec emax (d + 0) = d - 53).
  { unfold fexp, emin, prec, emax. lia. }
  fold d. rewrite Hf.
  assert (Hle : (d - 53 <=? emax - prec) = true)
    by (apply Z.leb_le; unfold emax, prec; lia).
  destruct (d - 53 - 0) as [|k|k] eqn:Hk; [|lia|].
  - assert (Hn : fexp prec emax (Zdigits2 (Z.pos m) + 0) - 0 = 0).
    { simpl Zdigits2. fold d. unfold fexp, emin, prec, emax. lia. }
    unfold binary_round_aux.
    rewrite (shr_fexp_exact _ _ Hn).
    cbn [shr_m loc_of_shr_record round_nearest_even].
    rewrite (shr_fexp_exact _ _ Hn). cbn [shr_m].
    replace (0 <=? emax - prec) with true by reflexivity. eauto.
  - assert (Hn : fexp prec emax
                   (Zdigits2 (Z.pos (PosDef.Pos.iter xO m k)) + (d - 53))
                 - (d - 53) = 0).
    { simpl Zdigits2. rewrite digits2_pos_iter. fold d.
      unfold fexp, emin, prec, emax. lia. }
    unfold binary_round_aux.
    rewrite (shr_fexp_exact _ _ Hn).
    cbn [shr_m loc_of_shr_record round_nearest_even].
    rewrite (shr_fexp_exact _ _ Hn). cbn [shr_m].
    rewrite Hle. eauto.
Qed.

Lemma small_positive_accepted (n : Z) :
  1 <= n < 2 ^ 53 -> is_finite_positive_integer #n = true.
Proof.
  intros Hn. destruct n as [|p|p]; try lia.
  destruct (binary_round_small false p) as (m & e & E); [lia|].
  unfold is_finite_positive_integer.
  rewrite (Number_of_Z_integer (Z.pos p)).
  - unfold Number_of_Z. cbn [binary_normalize]. rewrite E. reflexivity.
  - unfold Number_of_Z. cbn [binary_normalize]. rewrite E. reflexivity.
Qed.

(** ** parseInt on numerals *)


Lemma parseInt_unfold (input : string) :
  parseInt input
  = match digits_from None (snd (split_sign (trim_start input))) with
    | None => NaN
    | Some mathInt =>
        if mathInt =? 0
        then (if fst (split_sign (trim_start input))
              then neg_zero else pos_zero)
        else Number_of_Z (if fst (split_sign (trim_start input))
                          then - mathInt else mathInt)
    end.
Proof.
  unfold parseInt, split_sign.
  destruct (trim_start input) as [|c rest]; [reflexivity|].
  destruct c as [[] [] [] [] [] [] [] []]; reflexivity.
Qed.

Lemma digit_head (c : ascii) (rest : string) :
  is_digit c = true ->
  trim_start (String c rest) = String c rest
  /\ split_sign (String c rest) = (false, String c rest).
Proof.
  destruct c as [[] [] [] [] [] [] [] []]; try discriminate; auto.
Qed.

Lemma trim_start_white (w rest : string) :
  all_white w -> trim_start (w ++ rest) = trim_start rest.
Proof.
  unfold all_white. induction w as [|c w IH]; simpl; [reflexivity|].
  intros H. inversion H as [|? ? Hc Hw]; subst. rewrite Hc. apply IH, Hw.
Qed.

Lemma parseInt_plain_numeral (w tail : string) (n : N) :
  all_white w -> ends_numeral tail ->
  parseInt (w ++ numeral n ++ tail) = #(Z.of_N n).
Proof.
  intros Hw Ht.
  destruct (numeral_head n) as (c & rest & Hn & Hc).
  destruct (digit_head c (rest ++ tail) Hc) as [Htrim Hsplit].
  pose proof (read_numeral n tail Ht) as Hread.
  rewrite Hn in Hread. simpl append in Hread.
  rewrite Hn. simpl append.
  rewrite parseInt_unfold, (trim_start_white w _ Hw).
  rewrite Htrim, Hsplit. cbn [fst snd]. rewrite Hread.
  destruct n; reflexivity.
Qed.

(** [parseInt] reads back what the decimal notation writes: for every
    natural number [n], its numeral, after any white space and an optional
    plus sign, and before any rest that does not start with a digit, parses
    to the Number value of [n]; after a minus sign, to that of [-n] (to
    [-0] for 0). *)
Theorem parseInt_reads_numeral :
  forall (w tail : string) (n : N),
    all_white w -> ends_numeral tail ->
    parseInt (w ++ numeral n ++ tail) = #(Z.of_N n)
    /\ parseInt (w ++ "+" ++ numeral n ++ tail) = #(Z.of_N n)
    /\ parseInt (w ++ "-" ++ numeral n ++ tail)
       = if (n =? 0)%N then neg_zero else #(- Z.of_N n).
Proof.
  intros w tail n Hw Ht.
  destruct (numeral_head n) as (c & rest & Hn & Hc).
  destruct (digit_head c (rest ++ tail) Hc) as [Htrim Hsplit].
  pose proof (read_numeral n tail Ht) as Hread.
  rewrite Hn in Hread. simpl append in Hread.
  rewrite Hn. simpl append.
  split; [|split]; rewrite parseInt_unfold, (trim_start_white w _ Hw).
  - rewrite Htrim, Hsplit. cbn [fst snd]. rewrite Hread.
    destruct n; reflexivity.
  - replace (trim_start (String "+" (String c (rest ++ tail))))
      with (String "+" (String c (rest ++ tail))) by reflexivity.
    cbn [split_sign fst snd]. rewrite Hread. destruct n; reflexivity.
  - replace (trim_start (String "-" (String c (rest ++ tail))))
      with (String "-" (String c (rest ++ tail))) by reflexivity.
    cbn [split_sign fst snd]. rewrite Hread. destruct n; reflexivity.
Qed.

Lemma parseInt_reads_numeral_witness :
  parseInt (" " ++ numeral 42 ++ "px") = #42
  /\ parseInt (" " ++ "+" ++ numeral 42 ++ "px") = #42
  /\ parseInt (" " ++ "-" ++ numeral 42 ++ "px")
     = if (42 =? 0)%N then neg_zero else #(- 42).
Proof.
  apply (parseInt_reads_numeral " " "px" 42%N).
  - repeat constructor.
  - reflexivity.
Defined.

(** ** What the submit handler takes and what it refuses *)

(** Every input made of optional white space, the numeral of an integer
    [n] with [1 <= n < 2^53], and any rest not starting with a digit is
    accepted: the limit becomes [n] and the handler issues one poll, for
    [n]. *)
Theorem handleSubmit_accepts_numerals :
  forall (s : HomeState) (w tail : string) (n : N),
    all_white w -> ends_numeral tail ->
    1 <= Z.of_N n < 2 ^ 53 ->
    limitInput s = (w ++ numeral n ++ tail)%string ->
    handleSubmit s = fetchReadings #(Z.of_N n) (setLimit #(Z.of_N n) s)
    /\ limit (fst (handleSubmit s)) = #(Z.of_N n)
    /\ snd (handleSubmit s) = [#(Z.of_N n)].
Proof.
  intros s w tail n Hw Ht Hn Hin.
  assert (E : handleSubmit s
              = fetchReadings #(Z.of_N n) (setLimit #(Z.of_N n) s)).
  { rewrite handleSubmit_eq, Hin.
    rewrite (parseInt_plain_numeral w tail n Hw Ht).
    rewrite (small_positive_accepted _ Hn). reflexivity. }
  rewrite E. repeat split.
Qed.

Lemma handleSubmit_accepts_numerals_witness :
  let s := setLimitInput " 250 readings" Home_init in
  handleSubmit s = fetchReadings #250 (setLimit #250 s)
  /\ limit (fst (handleSubmit s)) = #250
  /\ snd (handleSubmit s) = [#250].
Proof.
  apply (handleSubmit_accepts_numerals
           (setLimitInput " 250 readings" Home_init)
           " " " readings" 250%N).
  - repeat constructor.
  - reflexivity.
  - vm_compute. split; [discriminate|reflexivity].
  - reflexivity.
Defined.

Lemma digits_from_nonneg (str : string) :
  forall acc : option Z,
    match acc with Some a => 0 <= a | None => True end ->
    match digits_from acc str with Some m => 0 <= m | None => True end.
Proof.
  induction str as [|c rest IH]; intros acc Ha; cbn [digits_from];
    [exact Ha|].
  unfold digit_value.
  destruct ((48 <=? N_of_ascii c)%N && (N_of_ascii c <=? 57)%N) eqn:Hc;
    [|exact Ha].
  apply IH. apply andb_prop in Hc. destruct Hc as [H1 H2].
  apply N.leb_le in H1. destruct acc; lia.
Qed.

Lemma Number_of_Z_negative (p : positive) :
  is_finite_positive_integer #(Z.neg p) = false.
Proof.
  unfold Number_of_Z. cbn [binary_normalize]. unfold binary_round.
  destruct (shl_align p 0 (fexp prec emax (Z.pos (digits2_pos p) + 0)))
    as [mz ez].
  destruct (binary_round_aux_cases prec emax true (Z.pos mz) ez loc_Exact)
    as [H|[H|(m & e & H & _)]]; [lia|rewrite H..];
    unfold is_finite_positive_integer; try reflexivity.
  apply andb_false_r.
Qed.

(** An input that, after white space, starts with a minus sign, or has no
    digit right after the white space and the optional sign (the empty
    input among them), is always refused: only the error changes, to the
    validation message, and no poll is issued. *)
Theorem handleSubmit_rejects_negative_and_non_numeric :
  forall s : HomeState,
    (fst (split_sign (trim_start (limitInput s))) = true
     \/ digits_from None (snd (split_sign (trim_start (limitInput s)))) = None) ->
    handleSubmit s = (setError (Some validation_message) s, []).
Proof.
  intros s H. rewrite handleSubmit_eq, parseInt_unfold.
  pose proof (digits_from_nonneg
                (snd (split_sign (trim_start (limitInput s)))) None I) as Hpos.
  destruct (digits_from None (snd (split_sign (trim_start (limitInput s)))))
    as [m|]; [|reflexivity].
  destruct H as [H|H]; [|discriminate]. rewrite H.
  destruct (m =? 0) eqn:Hm; [reflexivity|].
  apply Z.eqb_neq in Hm. destruct m as [|p|p]; try lia.
  cbn [Z.opp]. rewrite Number_of_Z_negative. reflexivity.
Qed.

Lemma handleSubmit_rejects_negative_and_non_numeric_witness :
  handleSubmit (setLimitInput "  -12" Home_init)
  = (setError (Some validation_message) (setLimitInput "  -12" Home_init), []).
Proof.
  apply (handleSubmit_rejects_negative_and_non_numeric
           (setLimitInput "  -12" Home_init)).
  left. reflexivity.
Defined.

(** * The ID column *)

Lemma string_drop_spec (n : nat) (s : string) :
  exists prefix,
    s = (prefix ++ string_drop n s)%string
    /\ String.length prefix = Nat.min n (String.length s).
Proof.
  revert s. induction n as [|n IH]; intros s.
  - exists EmptyString. split; reflexivity.
  - destruct s as [|c rest].
    + exists EmptyString. split; reflexivity.
    + destruct (IH rest) as (prefix & E & L).
      exists (String c prefix). simpl. split; [f_equal; exact E|].
      rewrite L. reflexivity.
Qed.

Lemma append_length (a b : string) :
  String.length (a ++ b) = (String.length a + String.length b)%nat.
Proof. induction a as [|c a IH]; simpl; [reflexivity|]. rewrite IH. reflexivity. Qed.

(** The ID column shows the end of the id: [_id.slice(-6)] is a suffix of
    the id, of length 6 or of the length of the id if that is less; an id of
    at most six code units is shown whole. *)
Theorem id_cell_is_last_six :
  forall reading : Reading,
    (exists prefix, _id reading = (prefix ++ id_cell reading)%string)
    /\ String.length (id_cell reading)
       = Nat.min 6 (String.length (_id reading))
    /\ ((String.length (_id reading) <= 6)%nat ->
        id_cell reading = _id reading).
Proof.
  intros reading. unfold id_cell, String_slice.
  set (s := _id reading). set (len := Z.of_nat (String.length s)).
  change (-6 <? 0) with true. cbv iota.
  destruct (string_drop_spec (Z.to_nat (Z.max (len + -6) 0)) s)
    as (prefix & E & L).
  assert (Hlen : String.length (string_drop (Z.to_nat (Z.max (len + -6) 0)) s)
                 = Nat.min 6 (String.length s)).
  { pose proof (f_equal String.length E) as E'. rewrite append_length in E'.
    subst len. lia. }
  split; [exists prefix; exact E|]. split; [exact Hlen|].
  intros Hshort.
  replace (Z.to_nat (Z.max (len + -6) 0)) with 0%nat by (subst len; lia).
  reflexivity.
Qed.

Lemma id_cell_is_last_six_witness :
  let reading :=
    {| _id := "a1b2c"; sensorId := "esp32-dht22-1"; location := "lab";
       temperature := #21; humidity := #40; pressure := None;
       timestamp := None; createdAt := None; updatedAt := None |} in
  id_cell reading = _id reading.
Proof.
  apply (proj2 (proj2 (id_cell_is_last_six
    {| _id := "a1b2c"; sensorId := "esp32-dht22-1"; location := "lab";
       temperature := #21; humidity := #40; pressure := None;
       timestamp := None; createdAt := None; updatedAt := None |}))).
  simpl. lia.
Defined.

